(** * SimSIMD benchmark harness (cpp/bench.cxx): a shallow embedding

    The harness measures vector-similarity kernels.  This development embeds
    - the input generator [vectors_pair_gt] with [set] and [randomize],
    - the measurement routine [measure],
    - the registration routine [register_] and the entry point [main],
    and states the properties of the harness over that embedding.

    C++ [double] is embedded as Rocq's primitive binary64 [float];
    [std::size_t] as [Z] with the wrap-around modulo 2^64 written out. *)

From Stdlib Require Import ZArith Floats DecimalString.
From stdpp Require Import gmap strings list.

#[local] Set Warnings "-inexact-float".
#[local] Open Scope Z_scope.

(** ** Machine arithmetic *)

(** [std::size_t] arithmetic on a 64-bit target. *)
Definition wrap64 (z : Z) : Z := z mod 2^64.

(** Conversion of an integer to [double] (round to nearest, ties to even). *)
Definition f64_of_Z (z : Z) : float :=
  SF2Prim (binary_normalize 53 1024 z 0 false).

(** Narrowing of a [double] to an IEEE format with [prec] bits of mantissa
    and infinities at exponent [emax]; the result is held in a [double],
    which represents every value of the narrower format exactly. *)
Definition narrow (prec emax : Z) (x : float) : float :=
  match Prim2SF x with
  | S754_finite s m e =>
      SF2Prim (binary_normalize prec emax (cond_Zopp s (Zpos m)) e s)
  | _ => x
  end.

(** The [double] [x] holds the integer [z], exactly. *)
Definition double_is_integer (x : float) (z : Z) : Prop :=
  match Prim2SF x with
  | S754_zero _ => z = 0
  | S754_finite s m e => e <= 0 /\ cond_Zopp s (Z.pos m) = z * 2 ^ (- e)
  | _ => False
  end.

(** The number 1 in the specification of [double]s. *)
Definition SF_one : spec_float := S754_finite false 4503599627370496 (-52).

(** Modelled from the spec: the scalar typedefs live in simsimd/simsimd.h,
    which is not part of the sources at hand.  The spec lists the scalar
    types as 16-bit float, 32-bit float, 64-bit float, 8-bit signed integer
    and packed bit-set byte; [simsimd_distance_t], the type of the slots of
    the output buffer, is the 64-bit float. *)
Definition f32_of_f64 : float -> float := narrow 24 128.
Definition f16_of_f64 : float -> float := narrow 11 16.

(** [static_cast] of an [int] to [signed char] and to [unsigned char]. *)
Definition i8_of_int (z : Z) : Z := (z + 128) mod 256 - 128.
Definition u8_of_int (z : Z) : Z := z mod 256.

(** ** The function kinds *)

Inductive function_kind_t : Set :=
  | distance_k
  | complex_dot_k
  | haversine_k.

(** ** Scalar types

    [randomize] branches on [std::is_integral_v<scalar_at>] at compile time:
    an integral scalar only needs the cast from [int], a floating scalar the
    cast from [double] and the promotion back to [double]. *)

Inductive scalar_sort (T : Type) : Type :=
  | integral_scalar (of_int : Z -> T)
  | floating_scalar (of_double : float -> T) (to_double : T -> float).
Arguments integral_scalar {T} of_int.
Arguments floating_scalar {T} of_double to_double.

Record scalar_type : Type := {
  carrier : Type;
  sizeof : Z;
  zero_init : carrier;
  sort : scalar_sort carrier
}.

Definition is_integral_v (s : scalar_type) : bool :=
  match sort s with
  | integral_scalar _ => true
  | floating_scalar _ _ => false
  end.

Definition simsimd_f64_t : scalar_type :=
  {| carrier := float; sizeof := 8; zero_init := 0%float;
     sort := floating_scalar (fun x => x) (fun x => x) |}.
Definition simsimd_f32_t : scalar_type :=
  {| carrier := float; sizeof := 4; zero_init := 0%float;
     sort := floating_scalar f32_of_f64 (fun x => x) |}.
Definition simsimd_f16_t : scalar_type :=
  {| carrier := float; sizeof := 2; zero_init := 0%float;
     sort := floating_scalar f16_of_f64 (fun x => x) |}.
Definition simsimd_i8_t : scalar_type :=
  {| carrier := Z; sizeof := 1; zero_init := 0;
     sort := integral_scalar i8_of_int |}.
Definition simsimd_b8_t : scalar_type :=
  {| carrier := Z; sizeof := 1; zero_init := 0;
     sort := integral_scalar u8_of_int |}.

(** ** The platform random source

    [rand()] is the C library's global generator.  A generator is
    determined by the sequence of values it will return, so its state is
    that sequence together with the number of values already drawn. *)

Record rand_state : Type := { draws : nat -> Z; cursor : nat }.

Definition rand (g : rand_state) : Z * rand_state :=
  (draws g (cursor g), {| draws := draws g; cursor := S (cursor g) |}).

(** The value of [RAND_MAX] in glibc. *)
Definition RAND_MAX : Z := 2147483647.

(** The mantissa of [RAND_MAX] as a [double]: (2^31 - 1) * 2^22. *)
Definition RAND_MAX_mantissa : positive := 9007199250546688.

(** ** Loops

    [for (std::size_t i = 0; i != n; ++i) body]. *)

Fixpoint for_range {St : Type} (i count : nat) (body : nat -> St -> St) (s : St) : St :=
  match count with
  | O => s
  | S count' => for_range (S i) count' body (body i s)
  end.

Definition for_loop {St : Type} (n : nat) (body : nat -> St -> St) (s : St) : St :=
  for_range 0 n body s.

(** ** The input generator *)

Module vectors_pair_gt.
Section Pair.
Variable scalar_at : scalar_type.
Variable dimensions_ak : nat.

Abbreviation T := (carrier scalar_at).

Record t : Type := { a : list T; b : list T }.

(** [scalar_at a[dimensions_ak]{}; scalar_at b[dimensions_ak]{};] *)
Definition init : t :=
  {| a := replicate dimensions_ak (zero_init scalar_at);
     b := replicate dimensions_ak (zero_init scalar_at) |}.

Definition dimensions (p : t) : Z := wrap64 (Z.of_nat dimensions_ak).
Definition size_bytes (p : t) : Z :=
  wrap64 (Z.of_nat dimensions_ak * sizeof scalar_at).

(** Read and write of one array cell. *)
Definition get (l : list T) (i : nat) : T := default (zero_init scalar_at) (l !! i).
Definition set_a (i : nat) (v : T) (p : t) : t := {| a := <[i := v]> (a p); b := b p |}.
Definition set_b (i : nat) (v : T) (p : t) : t := {| a := a p; b := <[i := v]> (b p) |}.

Definition set (v : T) (p : t) : t :=
  for_loop dimensions_ak (fun i p => set_a i v (set_b i v p)) p.

(** The state of the first loop of [randomize]: the pair, the random
    source and the two running sums of squares. *)
Record fill_state : Type := {
  fs_pair : t;
  fs_rand : rand_state;
  a2_sum : float;
  b2_sum : float
}.

Definition fill_step (i : nat) (s : fill_state) : fill_state :=
  match sort scalar_at with
  | integral_scalar of_int =>
      let '(r1, g) := rand (fs_rand s) in
      let p := set_a i (of_int r1) (fs_pair s) in
      let '(r2, g) := rand g in
      let p := set_b i (of_int r2) p in
      {| fs_pair := p; fs_rand := g; a2_sum := a2_sum s; b2_sum := b2_sum s |}
  | floating_scalar of_double _ =>
      let '(r1, g) := rand (fs_rand s) in
      let ai := (f64_of_Z r1 / f64_of_Z RAND_MAX)%float in
      let '(r2, g) := rand g in
      let bi := (f64_of_Z r2 / f64_of_Z RAND_MAX)%float in
      let a2 := (a2_sum s + ai * ai)%float in
      let b2 := (b2_sum s + bi * bi)%float in
      let p := set_a i (of_double ai) (fs_pair s) in
      let p := set_b i (of_double bi) p in
      {| fs_pair := p; fs_rand := g; a2_sum := a2; b2_sum := b2 |}
  end.

Definition normalize_step (a2 b2 : float) (i : nat) (p : t) : t :=
  match sort scalar_at with
  | integral_scalar _ => p
  | floating_scalar of_double to_double =>
      let p := set_a i (of_double (to_double (get (a p) i) / a2)%float) p in
      set_b i (of_double (to_double (get (b p) i) / b2)%float) p
  end.

Definition randomize (p : t) (g : rand_state) : t * rand_state :=
  let s := for_loop dimensions_ak fill_step
             {| fs_pair := p; fs_rand := g; a2_sum := 0; b2_sum := 0 |} in
  (* Normalize the vectors: *)
  match sort scalar_at with
  | integral_scalar _ => (fs_pair s, fs_rand s)
  | floating_scalar _ _ =>
      let a2 := PrimFloat.sqrt (a2_sum s) in
      let b2 := PrimFloat.sqrt (b2_sum s) in
      (for_loop dimensions_ak (normalize_step a2 b2) (fs_pair s), fs_rand s)
  end.
End Pair.
End vectors_pair_gt.

(** ** Procedures

    A C++ function body is a state transformer that either falls through to
    the next statement or leaves the function through a [return]. *)

Inductive outcome (R A : Type) : Type :=
  | Next (x : A)
  | Returned (r : R).
Arguments Next {R A} x.
Arguments Returned {R A} r.

Definition proc (St R A : Type) : Type := St -> outcome R A * St.

Definition ret {St R A : Type} (x : A) : proc St R A := fun s => (Next x, s).

Definition bind {St R A B : Type} (c : proc St R A) (k : A -> proc St R B) : proc St R B :=
  fun s =>
    match c s with
    | (Next x, s') => k x s'
    | (Returned r, s') => (Returned r, s')
    end.

Definition return_ {St R A : Type} (r : R) : proc St R A := fun s => (Returned r, s).

Definition get_state {St R : Type} : proc St R St := fun s => (Next s, s).
Definition modify {St R : Type} (f : St -> St) : proc St R unit := fun s => (Next tt, f s).

(** Calling a function: its body runs to its [return] or to its end. *)
Definition call {St R : Type} (body : proc St R R) (s : St) : R * St :=
  match body s with
  | (Next r, s') => (r, s')
  | (Returned r, s') => (r, s')
  end.

(** A call statement inside another function body. *)
Definition invoke_proc {St R R' : Type} (body : proc St R R) : proc St R' R :=
  fun s => let '(r, s') := call body s in (Next r, s').

Declare Scope proc_scope.
Delimit Scope proc_scope with proc.
Notation "x <- c ;; k" := (bind c (fun x => k))
  (at level 100, c at next level, right associativity) : proc_scope.
Notation "c ;; k" := (bind c (fun _ => k))
  (at level 100, right associativity) : proc_scope.

(** For loops whose body is a procedure: [n] rounds, threading [acc]. *)
Fixpoint repeat_proc {St R A : Type} (n : nat) (body : A -> proc St R A) (acc : A) : proc St R A :=
  match n with
  | O => ret acc
  | S n' => bind (body acc) (repeat_proc n' body)
  end.

(** ** The benchmarking engine, as far as [measure] sees it *)

Inductive Flags : Set := kDefaults | kIsRate.

(** [bm::Counter]: a [double] and its flags. *)
Record Counter : Type := { value : float; cflags : Flags }.

(** [bm::State]: the engine fixes the number of iterations of the range-for
    loop over the state before the loop starts; [counters] is the map of
    user counters. *)
Record State : Type := {
  max_iterations : nat;
  counters : gmap string Counter
}.

(** ** The measurement routine *)

(** [simsimd_distance_t results[2]] *)
Definition results_t : Type := float * float.

Inductive callee : Set := Baseline | Contender.

(** Lines 84 and 85 of the source. *)
Definition accuracy_delta (c c_baseline : float) : float :=
  if (0.0001 <? PrimFloat.abs (c - c_baseline))%float
  then PrimFloat.abs (c - c_baseline) else 0%float.

Definition accuracy_error (delta c_baseline : float) : float :=
  if negb (delta =? 0)%float && negb (c_baseline =? 0)%float
  then (delta / c_baseline)%float else 0%float.

Section Measure.
(** Whatever a kernel may depend on besides its arguments. *)
Variable world : Type.
Variable scalar_at : scalar_type.
Variable dimensions_ak : nat.

Abbreviation T := (carrier scalar_at).
Abbreviation pair_at := (vectors_pair_gt.t scalar_at).

(** A kernel: [(a, b, n, results)], writing into the output buffer. *)
Definition metric_at : Type :=
  list T -> list T -> Z -> results_t -> world -> results_t * world.

(** What a thread running [measure] works on: the engine's state handle,
    the random source, the kernels' world, and the record of the kernel
    calls made so far, each with the role of the callee and the output
    buffer handed to it. *)
Record machine : Type := {
  state : State;
  rng : rand_state;
  kworld : world;
  calls : list (callee * results_t)
}.

Abbreviation M := (proc machine unit).

Definition pair_randomize (p : pair_at) : M pair_at :=
  fun m =>
    let '(p', g) := vectors_pair_gt.randomize scalar_at dimensions_ak p (rng m) in
    (Next p', {| state := state m; rng := g; kworld := kworld m; calls := calls m |}).

Definition call_kernel (who : callee) (k : metric_at) (p : pair_at) (results : results_t)
  : M results_t :=
  fun m =>
    let '(results', w) :=
      k (vectors_pair_gt.a _ p) (vectors_pair_gt.b _ p)
        (vectors_pair_gt.dimensions scalar_at dimensions_ak p) results (kworld m) in
    (Next results',
     {| state := state m; rng := rng m; kworld := w;
        calls := calls m ++ [(who, results)] |}).

(** [state.counters[k] = c] *)
Definition set_counter (k : string) (c : Counter) : M unit :=
  modify (fun m =>
    {| state := {| max_iterations := max_iterations (state m);
                   counters := <[k := c]> (counters (state m)) |};
       rng := rng m; kworld := kworld m; calls := calls m |}).

Local Open Scope proc_scope.

Definition call_baseline (baseline : metric_at) (p : pair_at) : M float :=
  let results : results_t := (0, 0)%float in
  results <- call_kernel Baseline baseline p results ;;
  ret (f32_of_f64 (fst results + snd results)%float).

Definition call_contender (metric : metric_at) (p : pair_at) : M float :=
  let results : results_t := (0, 0)%float in
  results <- call_kernel Contender metric p results ;;
  ret (f32_of_f64 (fst results + snd results)%float).

(** Lines 56 to 79: the pair, the reference value and the timed loop.
    Yields the pair, [c_baseline], [c] and [iterations]. *)
Definition measure_timed (metric baseline : metric_at)
  : M (pair_at * float * float * Z) :=
  let pair := vectors_pair_gt.init scalar_at dimensions_ak in
  pair <- pair_randomize pair ;;
  c_baseline <- call_baseline baseline pair ;;
  let c := 0%float in
  let iterations := 0 in
  m <- get_state ;;
  timed <-
    repeat_proc (max_iterations (state m))
      (fun '(c, iterations) =>
         c <- call_contender metric pair ;;
         ret (c, wrap64 (iterations + 1)))
      (c, iterations) ;;
  let '(c, iterations) := timed in
  ret (pair, c_baseline, c, iterations).

(** Lines 81 to 87: the four counters. *)
Definition measure_report (pair : pair_at) (c_baseline c : float) (iterations : Z)
  : M unit :=
  let size_bytes := vectors_pair_gt.size_bytes scalar_at dimensions_ak pair in
  set_counter "bytes"
    {| value := f64_of_Z (wrap64 (wrap64 (iterations * size_bytes) * 2));
       cflags := kIsRate |} ;;
  set_counter "pairs" {| value := f64_of_Z iterations; cflags := kIsRate |} ;;
  let delta := accuracy_delta c c_baseline in
  let error := accuracy_error delta c_baseline in
  set_counter "abs_delta" {| value := delta; cflags := kDefaults |} ;;
  set_counter "relative_error" {| value := error; cflags := kDefaults |}.

Definition measure (function_kind : function_kind_t) (metric baseline : metric_at)
  : M unit :=
  timed <- measure_timed metric baseline ;;
  let '(p, c_baseline, c, iterations) := timed in
  measure_report p c_baseline c iterations.

(** The counters a thread reports after the engine has called [measure]. *)
Definition reported (function_kind : function_kind_t) (metric baseline : metric_at)
    (m : machine) : gmap string Counter :=
  counters (state (snd (call (measure function_kind metric baseline) m))).
End Measure.

Arguments state {world}.
Arguments rng {world}.
Arguments kworld {world}.
Arguments calls {world}.

(** ** The registration catalog and the entry point *)

(** [std::to_string] of a [std::size_t]. *)
Definition to_string (z : Z) : string := NilZero.string_of_uint (N.to_uint (Z.to_N z)).

(** The line feed of the [printf] formats. *)
Definition LF : string := String (Ascii.ascii_of_nat 10) EmptyString.

(** A registered callback: [measure<pair_at, function_kind, metric_at*>]
    bound to its two kernels, which are named by their symbols. *)
Record benchmark_fn : Type := {
  fn_scalar : scalar_type;
  fn_dimensions : nat;
  fn_kind : function_kind_t;
  fn_metric : string;
  fn_baseline : string
}.

(** A benchmark case held by the engine. *)
Record BenchmarkCase : Type := {
  case_name : string;
  case_fn : benchmark_fn;
  case_min_time : float;
  case_threads : Z
}.

Inductive engine_event : Type :=
  | Initialized (argv : list string)
  | RanSpecifiedBenchmarks (cases : list BenchmarkCase)
  | ShutDown.

(** The process: what was printed, the engine's registry, and what the
    engine was asked to do. *)
Record process : Type := {
  stdout : list string;
  registry : list BenchmarkCase;
  engine_log : list engine_event
}.

Section Catalog.
(** [std::thread::hardware_concurrency()] *)
Variable hardware_concurrency : Z.

(** The capability flags of simsimd/simsimd.h, fixed at build time. *)
Variables SIMSIMD_TARGET_NEON SIMSIMD_TARGET_SVE SIMSIMD_TARGET_HASWELL
          SIMSIMD_TARGET_SKYLAKE SIMSIMD_TARGET_ICE SIMSIMD_TARGET_SAPPHIRE
          SIMSIMD_NATIVE_F16 : bool.

(** The engine's argument parser: [bm::Initialize] rewrites the argument
    vector, [bm::ReportUnrecognizedArguments] tells whether anything it
    does not know is left. *)
Variable Initialize : list string -> list string.
Variable ReportUnrecognizedArguments : list string -> bool.

Local Open Scope proc_scope.

Definition printf {R : Type} (line : string) : proc process R unit :=
  modify (fun s => {| stdout := stdout s ++ [line]; registry := registry s;
                      engine_log := engine_log s |}).

Definition log_event {R : Type} (e : engine_event) : proc process R unit :=
  modify (fun s => {| stdout := stdout s; registry := registry s;
                      engine_log := engine_log s ++ [e] |}).

(** [bm::RegisterBenchmark] appends a case with the engine's defaults and
    hands back a handle on it; [MinTime] and [Threads] set its fields. *)
Definition RegisterBenchmark {R : Type} (name : string) (fn : benchmark_fn)
  : proc process R nat :=
  fun s =>
    (Next (length (registry s)),
     {| stdout := stdout s;
        registry := registry s ++
          [{| case_name := name; case_fn := fn; case_min_time := 0; case_threads := 1 |}];
        engine_log := engine_log s |}).

Definition update_case {R : Type} (handle : nat) (f : BenchmarkCase -> BenchmarkCase)
  : proc process R unit :=
  modify (fun s => {| stdout := stdout s; registry := alter f handle (registry s);
                      engine_log := engine_log s |}).

Definition MinTime {R : Type} (handle : nat) (t : float) : proc process R nat :=
  update_case handle (fun c =>
    {| case_name := case_name c; case_fn := case_fn c; case_min_time := t;
       case_threads := case_threads c |}) ;;
  ret handle.

Definition Threads {R : Type} (handle : nat) (t : Z) : proc process R nat :=
  update_case handle (fun c =>
    {| case_name := case_name c; case_fn := case_fn c;
       case_min_time := case_min_time c; case_threads := t |}) ;;
  ret handle.

Definition register_ (scalar_at : scalar_type) (function_kind : function_kind_t)
    (name : string) (distance_func baseline_func : string) : proc process unit unit :=
  let seconds := 10 in
  let threads := hardware_concurrency in

  let pair_dims_t := 1536%nat in
  let name_dims :=
    name +:+ "_" +:+
    to_string (vectors_pair_gt.dimensions scalar_at pair_dims_t
                 (vectors_pair_gt.init scalar_at pair_dims_t)) +:+ "d" in
  handle <- RegisterBenchmark name_dims
    {| fn_scalar := scalar_at; fn_dimensions := pair_dims_t; fn_kind := function_kind;
       fn_metric := distance_func; fn_baseline := baseline_func |} ;;
  handle <- MinTime handle (f64_of_Z seconds) ;;
  handle <- Threads handle threads ;;

  return_ (A := unit) tt ;;
  let pair_bytes_t := Z.to_nat (1536 / sizeof scalar_at) in
  let name_bytes :=
    name +:+ "_" +:+
    to_string (vectors_pair_gt.size_bytes scalar_at pair_bytes_t
                 (vectors_pair_gt.init scalar_at pair_bytes_t)) +:+ "b" in
  handle <- RegisterBenchmark name_bytes
    {| fn_scalar := scalar_at; fn_dimensions := pair_bytes_t; fn_kind := function_kind;
       fn_metric := distance_func; fn_baseline := baseline_func |} ;;
  handle <- MinTime handle (f64_of_Z seconds) ;;
  handle <- Threads handle threads ;;
  ret tt.

Definition flags (b : bool) : string := if b then "true" else "false".

Definition main (argv : list string) : proc process Z Z :=
  let register_ scalar_at function_kind name distance_func baseline_func :=
    invoke_proc (R' := Z)
      (register_ scalar_at function_kind name distance_func baseline_func) in
  (* Log supported functionality *)
  printf ("Benchmarking Similarity Measures" +:+ LF) ;;
  printf LF ;;
  printf ("- Arm NEON support enabled: " +:+ flags SIMSIMD_TARGET_NEON +:+ LF) ;;
  printf ("- Arm SVE support enabled: " +:+ flags SIMSIMD_TARGET_SVE +:+ LF) ;;
  printf ("- x86 HASWELL support enabled: " +:+ flags SIMSIMD_TARGET_HASWELL +:+ LF) ;;
  printf ("- x86 SKYLAKE support enabled: " +:+ flags SIMSIMD_TARGET_SKYLAKE +:+ LF) ;;
  printf ("- x86 ICE support enabled: " +:+ flags SIMSIMD_TARGET_ICE +:+ LF) ;;
  printf ("- x86 SAPPHIRE support enabled: " +:+ flags SIMSIMD_TARGET_SAPPHIRE +:+ LF) ;;
  printf ("- Compiler supports F16: " +:+ flags SIMSIMD_NATIVE_F16 +:+ LF) ;;
  printf LF ;;

  (* Run the benchmarks *)
  log_event (Initialized argv) ;;
  let argv := Initialize argv in
  (if ReportUnrecognizedArguments argv then return_ 1 else ret tt) ;;

  (if SIMSIMD_TARGET_NEON then
     register_ simsimd_f16_t distance_k "neon_f16_dot" "simsimd_dot_f16_neon" "simsimd_dot_f16_accurate" ;;
     register_ simsimd_f16_t distance_k "neon_f16_cos" "simsimd_cos_f16_neon" "simsimd_cos_f16_accurate" ;;
     register_ simsimd_f16_t distance_k "neon_f16_l2sq" "simsimd_l2sq_f16_neon" "simsimd_l2sq_f16_accurate" ;;
     register_ simsimd_f16_t distance_k "neon_f16_kl" "simsimd_kl_f16_neon" "simsimd_kl_f16_accurate" ;;
     register_ simsimd_f16_t distance_k "neon_f16_js" "simsimd_js_f16_neon" "simsimd_js_f16_accurate" ;;
     register_ simsimd_f32_t distance_k "neon_f32_dot" "simsimd_dot_f32_neon" "simsimd_dot_f32_accurate" ;;
     register_ simsimd_f32_t distance_k "neon_f32_cos" "simsimd_cos_f32_neon" "simsimd_cos_f32_accurate" ;;
     register_ simsimd_f32_t distance_k "neon_f32_l2sq" "simsimd_l2sq_f32_neon" "simsimd_l2sq_f32_accurate" ;;
     register_ simsimd_f32_t distance_k "neon_f32_kl" "simsimd_kl_f32_neon" "simsimd_kl_f32_accurate" ;;
     register_ simsimd_f32_t distance_k "neon_f32_js" "simsimd_js_f32_neon" "simsimd_js_f32_accurate" ;;
     register_ simsimd_i8_t distance_k "neon_i8_cos" "simsimd_cos_i8_neon" "simsimd_cos_i8_accurate" ;;
     register_ simsimd_i8_t distance_k "neon_i8_l2sq" "simsimd_l2sq_i8_neon" "simsimd_l2sq_i8_accurate" ;;
     register_ simsimd_b8_t distance_k "neon_b8_hamming" "simsimd_hamming_b8_neon" "simsimd_hamming_b8_serial" ;;
     register_ simsimd_b8_t distance_k "neon_b8_jaccard" "simsimd_jaccard_b8_neon" "simsimd_jaccard_b8_serial" ;;
     register_ simsimd_f32_t complex_dot_k "neon_f32c_dot" "simsimd_dot_f32c_neon" "simsimd_dot_f32c_accurate"
   else ret tt) ;;
  (if SIMSIMD_TARGET_SVE then
     register_ simsimd_f16_t distance_k "sve_f16_dot" "simsimd_dot_f16_sve" "simsimd_dot_f16_accurate" ;;
     register_ simsimd_f16_t distance_k "sve_f16_cos" "simsimd_cos_f16_sve" "simsimd_cos_f16_accurate" ;;
     register_ simsimd_f16_t distance_k "sve_f16_l2sq" "simsimd_l2sq_f16_sve" "simsimd_l2sq_f16_accurate" ;;
     register_ simsimd_f32_t distance_k "sve_f32_dot" "simsimd_dot_f32_sve" "simsimd_dot_f32_accurate" ;;
     register_ simsimd_f32_t distance_k "sve_f32_cos" "simsimd_cos_f32_sve" "simsimd_cos_f32_accurate" ;;
     register_ simsimd_f32_t distance_k "sve_f32_l2sq" "simsimd_l2sq_f32_sve" "simsimd_l2sq_f32_accurate" ;;
     register_ simsimd_f64_t distance_k "sve_f64_dot" "simsimd_dot_f64_sve" "simsimd_dot_f64_serial" ;;
     register_ simsimd_f64_t distance_k "sve_f64_cos" "simsimd_cos_f64_sve" "simsimd_cos_f64_serial" ;;
     register_ simsimd_f64_t distance_k "sve_f64_l2sq" "simsimd_l2sq_f64_sve" "simsimd_l2sq_f64_serial" ;;
     register_ simsimd_b8_t distance_k "sve_b8_hamming" "simsimd_hamming_b8_sve" "simsimd_hamming_b8_serial" ;;
     register_ simsimd_b8_t distance_k "sve_b8_jaccard" "simsimd_jaccard_b8_sve" "simsimd_jaccard_b8_serial"
   else ret tt) ;;
  (if SIMSIMD_TARGET_HASWELL then
     register_ simsimd_f16_t distance_k "avx2_f16_dot" "simsimd_dot_f16_haswell" "simsimd_dot_f16_accurate" ;;
     register_ simsimd_f16_t distance_k "avx2_f16_cos" "simsimd_cos_f16_haswell" "simsimd_cos_f16_accurate" ;;
     register_ simsimd_f16_t distance_k "avx2_f16_l2sq" "simsimd_l2sq_f16_haswell" "simsimd_l2sq_f16_accurate" ;;
     register_ simsimd_f16_t distance_k "avx2_f16_kl" "simsimd_kl_f16_haswell" "simsimd_kl_f16_accurate" ;;
     register_ simsimd_f16_t distance_k "avx2_f16_js" "simsimd_js_f16_haswell" "simsimd_js_f16_accurate" ;;
     register_ simsimd_i8_t distance_k "avx2_i8_cos" "simsimd_cos_i8_haswell" "simsimd_cos_i8_accurate" ;;
     register_ simsimd_i8_t distance_k "avx2_i8_l2sq" "simsimd_l2sq_i8_haswell" "simsimd_l2sq_i8_accurate" ;;
     register_ simsimd_b8_t distance_k "avx2_b8_hamming" "simsimd_hamming_b8_haswell" "simsimd_hamming_b8_serial" ;;
     register_ simsimd_b8_t distance_k "avx2_b8_jaccard" "simsimd_jaccard_b8_haswell" "simsimd_jaccard_b8_serial"
   else ret tt) ;;
  (if SIMSIMD_TARGET_SAPPHIRE then
     register_ simsimd_f16_t distance_k "avx512_f16_dot" "simsimd_dot_f16_sapphire" "simsimd_dot_f16_accurate" ;;
     register_ simsimd_f16_t distance_k "avx512_f16_cos" "simsimd_cos_f16_sapphire" "simsimd_cos_f16_accurate" ;;
     register_ simsimd_f16_t distance_k "avx512_f16_l2sq" "simsimd_l2sq_f16_sapphire" "simsimd_l2sq_f16_accurate" ;;
     register_ simsimd_f16_t distance_k "avx512_f16_kl" "simsimd_kl_f16_sapphire" "simsimd_kl_f16_accurate" ;;
     register_ simsimd_f16_t distance_k "avx512_f16_js" "simsimd_js_f16_sapphire" "simsimd_js_f16_accurate"
   else ret tt) ;;
  (if SIMSIMD_TARGET_ICE then
     register_ simsimd_i8_t distance_k "avx512_i8_cos" "simsimd_cos_i8_ice" "simsimd_cos_i8_accurate" ;;
     register_ simsimd_i8_t distance_k "avx512_i8_l2sq" "simsimd_l2sq_i8_ice" "simsimd_l2sq_i8_accurate" ;;
     register_ simsimd_f64_t distance_k "avx512_f64_dot" "simsimd_dot_f64_skylake" "simsimd_dot_f64_serial" ;;
     register_ simsimd_f64_t distance_k "avx512_f64_cos" "simsimd_cos_f64_skylake" "simsimd_cos_f64_serial" ;;
     register_ simsimd_f64_t distance_k "avx512_f64_l2sq" "simsimd_l2sq_f64_skylake" "simsimd_l2sq_f64_serial" ;;
     register_ simsimd_b8_t distance_k "avx512_b8_hamming" "simsimd_hamming_b8_avx512" "simsimd_hamming_b8_serial" ;;
     register_ simsimd_b8_t distance_k "avx512_b8_jaccard" "simsimd_jaccard_b8_avx512" "simsimd_jaccard_b8_serial"
   else ret tt) ;;
  (if SIMSIMD_TARGET_SKYLAKE then
     register_ simsimd_f32_t distance_k "avx512_f32_dot" "simsimd_dot_f32_skylake" "simsimd_dot_f32_accurate" ;;
     register_ simsimd_f32_t distance_k "avx512_f32_cos" "simsimd_cos_f32_skylake" "simsimd_cos_f32_accurate" ;;
     register_ simsimd_f32_t distance_k "avx512_f32_l2sq" "simsimd_l2sq_f32_skylake" "simsimd_l2sq_f32_accurate" ;;
     register_ simsimd_f32_t distance_k "avx512_f32_kl" "simsimd_kl_f32_skylake" "simsimd_kl_f32_accurate" ;;
     register_ simsimd_f32_t distance_k "avx512_f32_js" "simsimd_js_f32_skylake" "simsimd_js_f32_accurate"
   else ret tt) ;;
  register_ simsimd_f16_t distance_k "serial_f16_dot" "simsimd_dot_f16_serial" "simsimd_dot_f16_accurate" ;;
  register_ simsimd_f16_t distance_k "serial_f16_cos" "simsimd_cos_f16_serial" "simsimd_cos_f16_accurate" ;;
  register_ simsimd_f16_t distance_k "serial_f16_l2sq" "simsimd_l2sq_f16_serial" "simsimd_l2sq_f16_accurate" ;;
  register_ simsimd_f16_t distance_k "serial_f16_kl" "simsimd_kl_f16_serial" "simsimd_kl_f16_accurate" ;;
  register_ simsimd_f16_t distance_k "serial_f16_js" "simsimd_js_f16_serial" "simsimd_js_f16_accurate" ;;
  register_ simsimd_f32_t distance_k "serial_f32_dot" "simsimd_dot_f32_serial" "simsimd_dot_f32_accurate" ;;
  register_ simsimd_f32_t distance_k "serial_f32_cos" "simsimd_cos_f32_serial" "simsimd_cos_f32_accurate" ;;
  register_ simsimd_f32_t distance_k "serial_f32_l2sq" "simsimd_l2sq_f32_serial" "simsimd_l2sq_f32_accurate" ;;
  register_ simsimd_f32_t distance_k "serial_f32_kl" "simsimd_kl_f32_serial" "simsimd_kl_f32_accurate" ;;
  register_ simsimd_f32_t distance_k "serial_f32_js" "simsimd_js_f32_serial" "simsimd_js_f32_accurate" ;;
  register_ simsimd_f64_t distance_k "serial_f64_dot" "simsimd_dot_f64_serial" "simsimd_dot_f64_serial" ;;
  register_ simsimd_f64_t distance_k "serial_f64_cos" "simsimd_cos_f64_serial" "simsimd_cos_f64_serial" ;;
  register_ simsimd_f64_t distance_k "serial_f64_l2sq" "simsimd_l2sq_f64_serial" "simsimd_l2sq_f64_serial" ;;
  register_ simsimd_i8_t distance_k "serial_i8_cos" "simsimd_cos_i8_serial" "simsimd_cos_i8_accurate" ;;
  register_ simsimd_i8_t distance_k "serial_i8_l2sq" "simsimd_l2sq_i8_serial" "simsimd_l2sq_i8_accurate" ;;
  register_ simsimd_f32_t complex_dot_k "serial_f32c_dot" "simsimd_dot_f32c_serial" "simsimd_dot_f32c_accurate" ;;
  register_ simsimd_f16_t complex_dot_k "serial_f16c_dot" "simsimd_dot_f16c_serial" "simsimd_dot_f16c_accurate" ;;
  register_ simsimd_b8_t distance_k "serial_b8_hamming" "simsimd_hamming_b8_serial" "simsimd_hamming_b8_serial" ;;
  register_ simsimd_b8_t distance_k "serial_b8_jaccard" "simsimd_jaccard_b8_serial" "simsimd_jaccard_b8_serial" ;;

  s <- get_state ;;
  log_event (RanSpecifiedBenchmarks (registry s)) ;;
  log_event ShutDown ;;
  return_ 0.

(** *** Observables of the catalog *)

Definition with_cases (s : process) (cases : list BenchmarkCase) : process :=
  {| stdout := stdout s; registry := registry s ++ cases; engine_log := engine_log s |}.

(** The one case a call of [register_] leaves in the registry. *)
Definition registered_case (scalar_at : scalar_type) (function_kind : function_kind_t)
    (name distance_func baseline_func : string) : BenchmarkCase :=
  {| case_name := name +:+ "_1536d";
     case_fn := {| fn_scalar := scalar_at; fn_dimensions := 1536;
                   fn_kind := function_kind; fn_metric := distance_func;
                   fn_baseline := baseline_func |};
     case_min_time := 10;
     case_threads := hardware_concurrency |}.

(** A statement that only adds cases to the registry and falls through. *)
Definition registers (c : proc process Z unit) : Prop :=
  forall s, exists cases, c s = (Next tt, with_cases s cases).

(** The state once the banner is printed and the engine initialized. *)
Definition announced (argv : list string) (s : process) : process :=
  {| stdout := stdout s ++
       ["Benchmarking Similarity Measures" +:+ LF; LF;
        "- Arm NEON support enabled: " +:+ flags SIMSIMD_TARGET_NEON +:+ LF;
        "- Arm SVE support enabled: " +:+ flags SIMSIMD_TARGET_SVE +:+ LF;
        "- x86 HASWELL support enabled: " +:+ flags SIMSIMD_TARGET_HASWELL +:+ LF;
        "- x86 SKYLAKE support enabled: " +:+ flags SIMSIMD_TARGET_SKYLAKE +:+ LF;
        "- x86 ICE support enabled: " +:+ flags SIMSIMD_TARGET_ICE +:+ LF;
        "- x86 SAPPHIRE support enabled: " +:+ flags SIMSIMD_TARGET_SAPPHIRE +:+ LF;
        "- Compiler supports F16: " +:+ flags SIMSIMD_NATIVE_F16 +:+ LF; LF];
     registry := registry s;
     engine_log := engine_log s ++ [Initialized argv] |}.

(** The end of [main]: run what is registered, shut down. *)
Definition finished (s : process) (cases : list BenchmarkCase) : process :=
  {| stdout := stdout s;
     registry := registry s ++ cases;
     engine_log := engine_log s ++ [RanSpecifiedBenchmarks (registry s ++ cases); ShutDown] |}.

Definition runs_all (k : proc process Z Z) : Prop :=
  forall s, exists cases, k s = (Returned 0, finished s cases).

(** What [main] has done when it returns. *)
Definition main_post (argv : list string) (s : process) (r : outcome Z Z * process) : Prop :=
  if ReportUnrecognizedArguments (Initialize argv)
  then r = (Returned 1, announced argv s)
  else exists cases, r = (Returned 0, finished (announced argv s) cases).
End Catalog.

(** ** Observables of a run of [measure]

    The quantities the properties below speak about, read off a starting
    machine: the randomized pair, the outputs of the single baseline call
    and of the successive contender calls. *)

Definition fold_results (r : results_t) : float := f32_of_f64 (fst r + snd r)%float.

Section Observables.
Variable world : Type.
Variable scalar_at : scalar_type.
Variable dimensions_ak : nat.

Abbreviation kernel := (metric_at world scalar_at).

Definition input_pair (m : machine world) : vectors_pair_gt.t scalar_at :=
  fst (vectors_pair_gt.randomize scalar_at dimensions_ak
         (vectors_pair_gt.init scalar_at dimensions_ak) (rng m)).

(** One kernel call on the pair with a zeroed output buffer. *)
Definition kernel_run (k : kernel) (p : vectors_pair_gt.t scalar_at) (w : world)
  : results_t * world :=
  k (vectors_pair_gt.a _ p) (vectors_pair_gt.b _ p)
    (vectors_pair_gt.dimensions scalar_at dimensions_ak p) (0, 0)%float w.

(** [n] kernel calls in a row: the outputs in call order, and the world
    after the last call. *)
Fixpoint kernel_runs (k : kernel) (p : vectors_pair_gt.t scalar_at) (n : nat) (w : world)
  : list results_t * world :=
  match n with
  | O => ([], w)
  | S n' =>
      let '(r, w') := kernel_run k p w in
      let '(rs, w'') := kernel_runs k p n' w' in
      (r :: rs, w'')
  end.

Definition baseline_output (baseline : kernel) (m : machine world) : results_t * world :=
  kernel_run baseline (input_pair m) (kworld m).

Definition contender_outputs (metric baseline : kernel) (m : machine world)
  : list results_t * world :=
  kernel_runs metric (input_pair m) (max_iterations (state m))
    (snd (baseline_output baseline m)).

Definition reference_value (baseline : kernel) (m : machine world) : float :=
  fold_results (fst (baseline_output baseline m)).

Definition contender_values (metric baseline : kernel) (m : machine world) : list float :=
  map fold_results (fst (contender_outputs metric baseline m)).

(** The value of [c] after the loop: the last contender scalar, or the
    initial 0 when the loop body never ran. *)
Definition last_contender_value (metric baseline : kernel) (m : machine world) : float :=
  default 0%float (last (contender_values metric baseline m)).

(** A machine after some kernel calls. *)
Definition after_calls (m : machine world) (w : world) (cs : list (callee * results_t))
  : machine world :=
  {| state := state m; rng := rng m; kworld := w; calls := calls m ++ cs |}.

(** The body of the timed loop of [measure], as a function of [c] and
    [iterations]. *)
Definition loop_body (metric : kernel) (p : vectors_pair_gt.t scalar_at)
  : float * Z -> proc (machine world) unit (float * Z) :=
  fun '(c, iterations) =>
    bind (call_contender world scalar_at dimensions_ak metric p)
         (fun c => ret (c, wrap64 (iterations + 1))).

(** The machine [measure] leaves behind, in closed form. *)
Definition final_machine (metric baseline : kernel) (m : machine world) : machine world :=
  let p := input_pair m in
  let c_baseline := reference_value baseline m in
  let c := last_contender_value metric baseline m in
  let iterations := wrap64 (Z.of_nat (max_iterations (state m))) in
  let size_bytes := vectors_pair_gt.size_bytes scalar_at dimensions_ak p in
  let delta := accuracy_delta c c_baseline in
  {| state :=
       {| max_iterations := max_iterations (state m);
          counters :=
            <["relative_error" :=
                {| value := accuracy_error delta c_baseline; cflags := kDefaults |}]>
            (<["abs_delta" := {| value := delta; cflags := kDefaults |}]>
            (<["pairs" := {| value := f64_of_Z iterations; cflags := kIsRate |}]>
            (<["bytes" :=
                {| value := f64_of_Z (wrap64 (wrap64 (iterations * size_bytes) * 2));
                   cflags := kIsRate |}]>
            (counters (state m))))) |};
     rng := snd (vectors_pair_gt.randomize scalar_at dimensions_ak
                   (vectors_pair_gt.init scalar_at dimensions_ak) (rng m));
     kworld := snd (contender_outputs metric baseline m);
     calls := calls m ++ (Baseline, (0, 0)%float)
                :: replicate (max_iterations (state m)) (Contender, (0, 0)%float) |}.
End Observables.

(** ** Observables of [randomize] *)

Definition unit_draw (r : Z) : float := (f64_of_Z r / f64_of_Z RAND_MAX)%float.

(** The [k]-th value the generator returns from now on. *)
Definition nth_draw (g : rand_state) (k : nat) : Z := draws g (cursor g + k)%nat.

Definition sum_squares (ds : list float) : float :=
  fold_left (fun s d => (s + d * d)%float) ds 0%float.

(** The [double] draws that go to [a] and to [b]: [rand] is called for
    [a[i]] first and for [b[i]] second. *)
Definition a_draws (g : rand_state) (n : nat) : list float :=
  map (fun i => unit_draw (nth_draw g (2 * i))) (seq 0 n).
Definition b_draws (g : rand_state) (n : nat) : list float :=
  map (fun i => unit_draw (nth_draw g (2 * i + 1))) (seq 0 n).

(** The generator after [k] more draws. *)
Definition drawn (g : rand_state) (k : nat) : rand_state :=
  {| draws := draws g; cursor := cursor g + k |}.

(** Both arrays of a pair have their [dimensions_ak] cells. *)
Definition sized (scalar_at : scalar_type) (dimensions_ak : nat)
    (p : vectors_pair_gt.t scalar_at) : Prop :=
  length (vectors_pair_gt.a _ p) = dimensions_ak /\
  length (vectors_pair_gt.b _ p) = dimensions_ak.

(** ** The wording of the specification, for comparison *)

(** "relative_error = absolute_delta / |reference value| if both the delta
    is nonzero and the reference value is nonzero, else 0" *)
Definition relative_error_as_specified (delta reference : float) : float :=
  if negb (delta =? 0)%float && negb (reference =? 0)%float
  then (delta / PrimFloat.abs reference)%float else 0%float.

(** "absolute_delta = |last contender scalar - reference value|, but clamped
    to 0 if below a fixed tolerance of 0.0001" *)
Definition absolute_delta_as_specified (c reference : float) : float :=
  if (PrimFloat.abs (c - reference) <? 0.0001)%float
  then 0%float else PrimFloat.abs (c - reference).

(** "each vector is divided by the square root of its own sum of squares,
    then cast to the target scalar width" *)
Definition normalized_as_specified {T : Type} (of_double : float -> T) (ds : list float)
  : list T :=
  map (fun d => of_double (d / PrimFloat.sqrt (sum_squares ds))%float) ds.

(** "each output vector's L2 norm is within a small fixed tolerance (e.g.
    1e-3) of 1.0" *)
Definition l2_norm (v : list float) : float := PrimFloat.sqrt (sum_squares v).
Definition unit_norm_as_specified (v : list float) : bool :=
  (PrimFloat.abs (l2_norm v - 1) <=? 0.001)%float.

(** ** Concrete runs *)

(** A sample of draws, as a C library may return them. *)
Definition sample_draws : list Z :=
  [1804289383; 846930886; 1681692777; 1714636915;
   1957747793; 424238335; 719885386; 1649760492].

Definition const_rand (v : Z) : rand_state := {| draws := fun _ => v; cursor := 0 |}.
Definition list_rand (l : list Z) : rand_state :=
  {| draws := fun i => default 0 (l !! i); cursor := 0 |}.

(** A stateless kernel that writes fixed outputs. *)
Definition const_kernel (T : Type) (r : results_t)
  : list T -> list T -> Z -> results_t -> unit -> results_t * unit :=
  fun _ _ _ _ w => (r, w).

(** A kernel with hidden state: it counts its calls and writes the count. *)
Definition counting_kernel (T : Type)
  : list T -> list T -> Z -> results_t -> Z -> results_t * Z :=
  fun _ _ _ _ w => ((f64_of_Z (w + 1), 0%float), w + 1).

(** The dot product in [double], the kernel of the end-to-end scenarios. *)
Definition dot_kernel
  : list float -> list float -> Z -> results_t -> unit -> results_t * unit :=
  fun a b _ r w =>
    ((fold_left (fun s xy => (s + fst xy * snd xy)%float) (zip a b) 0%float, snd r), w).

Definition start {world : Type} (w : world) (n : nat) (g : rand_state) : machine world :=
  {| state := {| max_iterations := n; counters := ∅ |}; rng := g; kworld := w; calls := [] |}.

Definition fresh_process : process := {| stdout := []; registry := []; engine_log := [] |}.

(** ** The catalog as a list *)

(** The cases [main] registers when the engine accepts the arguments, read
    off a run on a process that has registered nothing yet. *)
Definition catalog (hardware_concurrency : Z)
    (SIMSIMD_TARGET_NEON SIMSIMD_TARGET_SVE SIMSIMD_TARGET_HASWELL
     SIMSIMD_TARGET_SKYLAKE SIMSIMD_TARGET_ICE SIMSIMD_TARGET_SAPPHIRE
     SIMSIMD_NATIVE_F16 : bool) : list BenchmarkCase :=
  registry (snd (call (main hardware_concurrency SIMSIMD_TARGET_NEON SIMSIMD_TARGET_SVE
                         SIMSIMD_TARGET_HASWELL SIMSIMD_TARGET_SKYLAKE SIMSIMD_TARGET_ICE
                         SIMSIMD_TARGET_SAPPHIRE SIMSIMD_NATIVE_F16
                         (fun argv => argv) (fun _ => false) [])
                   fresh_process)).

(** A statement that adds the given cases to the registry and falls
    through, all of them with the property [P]. *)
Definition adds (P : BenchmarkCase -> Prop) (c : proc process Z unit)
    (cases : list BenchmarkCase) : Prop :=
  (forall s, c s = (Next tt, with_cases s cases)) /\ Forall P cases.

(** The settings shared by all the cases of the catalog. *)
Definition catalog_case (hardware_concurrency : Z) (c : BenchmarkCase) : Prop :=
  exists scalar_at function_kind name distance_func baseline_func,
    c = registered_case hardware_concurrency scalar_at function_kind name
          distance_func baseline_func /\
    function_kind <> haversine_k.

(** The cases registered whatever the capabilities, and the cases each
    capability adds in front of them. *)
Definition serial_cases (hardware_concurrency : Z) : list BenchmarkCase :=
  catalog hardware_concurrency false false false false false false false.

Definition tier (hardware_concurrency : Z) (cases : list BenchmarkCase) : list BenchmarkCase :=
  take (length cases - length (serial_cases hardware_concurrency)) cases.

Definition neon_cases (hardware_concurrency : Z) : list BenchmarkCase :=
  tier hardware_concurrency (catalog hardware_concurrency true false false false false false false).
Definition sve_cases (hardware_concurrency : Z) : list BenchmarkCase :=
  tier hardware_concurrency (catalog hardware_concurrency false true false false false false false).
Definition haswell_cases (hardware_concurrency : Z) : list BenchmarkCase :=
  tier hardware_concurrency (catalog hardware_concurrency false false true false false false false).
Definition skylake_cases (hardware_concurrency : Z) : list BenchmarkCase :=
  tier hardware_concurrency (catalog hardware_concurrency false false false true false false false).
Definition ice_cases (hardware_concurrency : Z) : list BenchmarkCase :=
  tier hardware_concurrency (catalog hardware_concurrency false false false false true false false).
Definition sapphire_cases (hardware_concurrency : Z) : list BenchmarkCase :=
  tier hardware_concurrency (catalog hardware_concurrency false false false false false true false).

(** * Properties *)

(** ** Comparisons of [double]s *)

Lemma SFcompare_Lt_Gt (x y : spec_float) :
  SFcompare x y = Some Lt -> SFcompare y x = Some Gt.
Proof.
  destruct x as [sx | sx | | sx mx ex], y as [sy | sy | | sy my ey]; simpl;
    try discriminate; try (destruct sx; discriminate); try (destruct sy; discriminate);
    try (destruct sx, sy; (discriminate || reflexivity)).
  destruct sx, sy; try discriminate; try reflexivity;
    rewrite (Z.compare_antisym ex ey); destruct (ex ?= ey)%Z; simpl;
    try discriminate; try reflexivity.
  all: change (PosDef.Pos.compare_cont Eq my mx) with (Pos.compare my mx);
       change (PosDef.Pos.compare_cont Eq mx my) with (Pos.compare mx my);
       rewrite (Pos.compare_antisym mx my); destruct (mx ?= my)%positive; simpl;
       intro; (discriminate || reflexivity).
Qed.

Lemma ltb_asym (x y : float) : (x <? y)%float = true -> (y <? x)%float = false.
Proof.
  rewrite !FloatAxioms.ltb_spec. unfold SFltb.
  destruct (SFcompare (Prim2SF x) (Prim2SF y)) as [[]|] eqn:E; try discriminate.
  intros _. now rewrite (SFcompare_Lt_Gt _ _ E).
Qed.

Lemma abs_not_negative (x : float) :
  (x <? 0)%float = false -> PrimFloat.abs x = x \/ (x =? 0)%float = true.
Proof.
  rewrite FloatAxioms.ltb_spec, FloatAxioms.eqb_spec. intros H.
  destruct (Prim2SF x) as [s | s | | s m e] eqn:E.
  - right. reflexivity.
  - left. apply Prim2SF_inj. rewrite abs_spec, E. destruct s; [discriminate H | reflexivity].
  - left. apply Prim2SF_inj. now rewrite abs_spec, E.
  - left. apply Prim2SF_inj. rewrite abs_spec, E. destruct s; [discriminate H | reflexivity].
Qed.

(** ** Integers in [double] *)

Lemma digits2_pos_size (p : positive) : digits2_pos p = Pos.size p.
Proof. induction p; simpl; congruence. Qed.

Lemma digits2_pos_bounds (p : positive) :
  2 ^ (Z.pos (digits2_pos p) - 1) <= Z.pos p < 2 ^ Z.pos (digits2_pos p).
Proof.
  rewrite digits2_pos_size. split.
  - pose proof (Pos.size_le p) as H.
    apply Pos2Z.pos_le_pos in H. rewrite Pos2Z.inj_pow in H.
    change (Z.pos p~0) with (2 * Z.pos p) in H.
    replace (Z.pos (Pos.size p)) with (Z.succ (Z.pos (Pos.size p) - 1)) in H at 1 by lia.
    rewrite Z.pow_succ_r in H by lia. lia.
  - pose proof (Pos.size_gt p) as H.
    apply Pos2Z.pos_lt_pos in H. now rewrite Pos2Z.inj_pow in H.
Qed.

Lemma digits2_pos_unique (p : positive) (d : Z) :
  2 ^ (d - 1) <= Z.pos p < 2 ^ d -> Z.pos (digits2_pos p) = d.
Proof.
  intros [Hl Hu]. pose proof (digits2_pos_bounds p) as [Hl' Hu'].
  assert (0 < d).
  { destruct (Z.lt_ge_cases 0 d); [assumption|].
    rewrite (Z.pow_neg_r 2 (d - 1)) in Hl by lia.
    assert (2 ^ d <= 1); [|lia].
    destruct (Z.eq_dec d 0) as [->|]; [simpl; lia|]. rewrite Z.pow_neg_r; lia. }
  destruct (Z.lt_trichotomy (Z.pos (digits2_pos p)) d) as [Hlt | [Heq | Hgt]]; [|assumption|].
  - assert (2 ^ Z.pos (digits2_pos p) <= 2 ^ (d - 1)) by (apply Z.pow_le_mono_r; lia). lia.
  - assert (2 ^ d <= 2 ^ (Z.pos (digits2_pos p) - 1)) by (apply Z.pow_le_mono_r; lia). lia.
Qed.

Lemma iter_xO_value (p : positive) (k : positive) :
  Z.pos (Pos.iter xO p k) = Z.pos p * 2 ^ Z.pos k.
Proof.
  induction k as [|k IH] using Pos.peano_ind.
  - simpl. lia.
  - rewrite Pos.iter_succ. change (Z.pos (Pos.iter xO p k)~0) with (2 * Z.pos (Pos.iter xO p k)).
    rewrite IH, Pos2Z.inj_succ, Z.pow_succ_r by lia. ring.
Qed.

Lemma loc_of_shr_record_of_loc (m : Z) (l : location) :
  loc_of_shr_record (shr_record_of_loc m l) = l /\ shr_m (shr_record_of_loc m l) = m.
Proof. destruct l as [|[]]; split; reflexivity. Qed.

Lemma round_nearest_even_step (m : Z) (l : location) :
  round_nearest_even m l = m \/ round_nearest_even m l = m + 1.
Proof.
  destruct l as [|[]]; simpl; auto. destruct (Z.even m); auto.
Qed.

(** Rounding a mantissa of 53 digits: it stays, or it carries into 2^53,
    which is renormalized to 2^52 one exponent higher. *)
Lemma binary_round_aux_53 (s : bool) (q : positive) (e : Z) (l : location) :
  Z.pos (digits2_pos q) = 53 -> -1074 <= e -> e + 1 <= 971 ->
  exists m e',
    binary_round_aux 53 1024 s (Z.pos q) e l = S754_finite s m e' /\
    ((e' = e /\ Z.pos (digits2_pos m) = 53 /\
      (Z.pos m = Z.pos q \/ Z.pos m = Z.pos q + 1)) \/
     (e' = e + 1 /\ m = 4503599627370496%positive)).
Proof.
  intros Hd He1 He2.
  unfold binary_round_aux, shr_fexp. cbn [Zdigits2]. rewrite Hd.
  replace (fexp 53 1024 (53 + e) - e) with 0 by (unfold fexp, emin; lia).
  cbn [shr]. destruct (loc_of_shr_record_of_loc (Z.pos q) l) as [-> ->].
  pose proof (digits2_pos_bounds q) as Hq. rewrite Hd in Hq.
  change (2 ^ (53 - 1)) with 4503599627370496 in Hq.
  change (2 ^ 53) with 9007199254740992 in Hq.
  destruct (round_nearest_even_step (Z.pos q) l) as [-> | ->].
  - cbn [Zdigits2 shr_record_of_loc]. rewrite Hd.
    replace (fexp 53 1024 (53 + e) - e) with 0 by (unfold fexp, emin; lia).
    cbn [shr shr_m]. replace (e <=? 1024 - 53) with true by (symmetry; apply Z.leb_le; lia).
    exists q, e. split; [reflexivity|]. left. auto.
  - destruct (Z.eq_dec (Z.pos q + 1) 9007199254740992) as [Hc|Hc].
    + rewrite Hc. change (Zdigits2 9007199254740992) with 54. cbn [shr_record_of_loc].
      replace (fexp 53 1024 (54 + e) - e) with 1 by (unfold fexp, emin; lia).
      cbn [shr iter_pos shr_1 shr_m].
      replace (e + 1 <=? 1024 - 53) with true by (symmetry; apply Z.leb_le; lia).
      exists 4503599627370496%positive, (e + 1). split; [reflexivity|]. right. auto.
    + destruct (Z.pos q + 1) as [|q'|q'] eqn:Eq; try lia.
      assert (Hd' : Z.pos (digits2_pos q') = 53).
      { apply digits2_pos_unique.
        change (2 ^ (53 - 1)) with 4503599627370496.
        change (2 ^ 53) with 9007199254740992. lia. }
      cbn [Zdigits2 shr_record_of_loc]. rewrite Hd'.
      replace (fexp 53 1024 (53 + e) - e) with 0 by (unfold fexp, emin; lia).
      cbn [shr shr_m]. replace (e <=? 1024 - 53) with true by (symmetry; apply Z.leb_le; lia).
      exists q', e. split; [reflexivity|]. left. repeat split; auto.
Qed.

(** Rounding a mantissa of 54 digits: one digit is shifted out first. *)
Lemma binary_round_aux_54 (s : bool) (q : positive) (e : Z) (l : location) :
  Z.pos (digits2_pos q) = 54 -> -1074 <= e -> e + 2 <= 971 ->
  exists m e',
    binary_round_aux 53 1024 s (Z.pos q) e l = S754_finite s m e' /\
    ((e' = e + 1 /\ Z.pos (digits2_pos m) = 53) \/
     (e' = e + 2 /\ m = 4503599627370496%positive)).
Proof.
  intros Hd He1 He2.
  assert (Hshift : exists p l', Z.pos (digits2_pos p) = 53 /\
            binary_round_aux 53 1024 s (Z.pos q) e l =
            binary_round_aux 53 1024 s (Z.pos p) (e + 1) l').
  { assert (Hstep : forall p b, q = (if b : bool then xI p else xO p) ->
              Z.pos (digits2_pos p) = 53 /\
              binary_round_aux 53 1024 s (Z.pos q) e l =
              binary_round_aux 53 1024 s (Z.pos p) (e + 1)
                (loc_of_shr_record (shr_1 (shr_record_of_loc (Z.pos q) l)))).
    { intros p b Hq.
      assert (Hp : Z.pos (digits2_pos p) = 53).
      { subst q. destruct b; cbn [digits2_pos] in Hd; lia. }
      split; [exact Hp|].
      unfold binary_round_aux, shr_fexp. cbn [Zdigits2]. rewrite Hd, Hp.
      replace (fexp 53 1024 (54 + e) - e) with 1 by (unfold fexp, emin; lia).
      replace (fexp 53 1024 (53 + (e + 1)) - (e + 1)) with 0 by (unfold fexp, emin; lia).
      cbn [shr iter_pos].
      destruct (loc_of_shr_record_of_loc (Z.pos p)
                  (loc_of_shr_record (shr_1 (shr_record_of_loc (Z.pos q) l)))) as [-> ->].
      assert (Hm : shr_m (shr_1 (shr_record_of_loc (Z.pos q) l)) = Z.pos p).
      { subst q. destruct b, l as [|[]]; reflexivity. }
      change (SpecFloat.iter_pos shr_1 1 (shr_record_of_loc (Z.pos q) l))
        with (shr_1 (shr_record_of_loc (Z.pos q) l)).
      rewrite Hm. reflexivity. }
    destruct q as [p|p|].
    - exists p. eexists. apply (Hstep p true). reflexivity.
    - exists p. eexists. apply (Hstep p false). reflexivity.
    - cbn in Hd. lia. }
  destruct Hshift as (p & l' & Hp & ->).
  destruct (binary_round_aux_53 s p (e + 1) l' Hp) as (m & e' & Hr & Hcases); try lia.
  exists m, e'. split; [exact Hr|].
  destruct Hcases as [(-> & Hm & _) | (-> & ->)]; [left | right]; split; auto; lia.
Qed.

(** ** Draws lie between 0 and 1 *)

Lemma SFleb_one (m : positive) (e : Z) :
  e < -52 \/ (e = -52 /\ m = 4503599627370496%positive) ->
  SFleb (S754_finite false m e) SF_one = true.
Proof.
  unfold SFleb, SF_one, SFcompare.
  intros [He | [-> ->]].
  - replace (e ?= -52) with Lt by (symmetry; apply Z.compare_lt_iff; lia). reflexivity.
  - reflexivity.
Qed.

Lemma binary_round_aux_exact (s : bool) (q : positive) (e : Z) :
  Z.pos (digits2_pos q) = 53 -> -1074 <= e <= 971 ->
  binary_round_aux 53 1024 s (Z.pos q) e loc_Exact = S754_finite s q e.
Proof.
  intros Hd He.
  unfold binary_round_aux, shr_fexp. cbn [Zdigits2 shr_record_of_loc]. rewrite Hd.
  replace (fexp 53 1024 (53 + e) - e) with 0 by (unfold fexp, emin; lia).
  cbn [shr shr_m loc_of_shr_record round_nearest_even Zdigits2 shr_record_of_loc].
  rewrite Hd.
  replace (fexp 53 1024 (53 + e) - e) with 0 by (unfold fexp, emin; lia).
  cbn [shr shr_m]. now replace (e <=? 1024 - 53) with true by (symmetry; apply Z.leb_le; lia).
Qed.

(** A positive integer of at most 53 binary digits converts exactly. *)
Lemma Prim2SF_f64_of_Z (p : positive) :
  Z.pos (digits2_pos p) <= 53 ->
  exists X : positive,
    Prim2SF (f64_of_Z (Z.pos p)) = S754_finite false X (Z.pos (digits2_pos p) - 53) /\
    Z.pos X = Z.pos p * 2 ^ (53 - Z.pos (digits2_pos p)) /\
    Z.pos (digits2_pos X) = 53.
Proof.
  intros Hd. set (d := Z.pos (digits2_pos p)) in *.
  assert (Hnorm : exists X : positive,
            binary_normalize 53 1024 (Z.pos p) 0 false = S754_finite false X (d - 53) /\
            Z.pos X = Z.pos p * 2 ^ (53 - d) /\ Z.pos (digits2_pos X) = 53).
  { unfold binary_normalize, binary_round, shl_align.
    assert (Hf : fexp 53 1024 (Z.pos (digits2_pos p) + 0) = d - 53)
      by (unfold fexp, emin; fold d; pose proof (Pos2Z.is_pos (digits2_pos p)); lia).
    rewrite Hf. rewrite Z.sub_0_r.
    destruct (d - 53) as [|k|k] eqn:Ek; try lia.
    - exists p. assert (d = 53) as Hd53 by lia.
      rewrite binary_round_aux_exact by (fold d; lia).
      rewrite Hd53. split; [reflexivity|]. split; [simpl; lia | exact Hd53].
    - exists (Pos.iter xO p k).
      assert (HX : Z.pos (Pos.iter xO p k) = Z.pos p * 2 ^ (53 - d)).
      { rewrite iter_xO_value. f_equal. f_equal. lia. }
      assert (HdX : Z.pos (digits2_pos (Pos.iter xO p k)) = 53).
      { apply digits2_pos_unique. rewrite HX.
        pose proof (digits2_pos_bounds p) as [Hl Hu]. fold d in Hl, Hu.
        assert (Hpd : 0 < d) by (unfold d; lia).
        assert (E1 : 2 ^ (53 - 1) = 2 ^ (d - 1) * 2 ^ (53 - d))
          by (rewrite <- Z.pow_add_r by lia; f_equal; lia).
        assert (E2 : 2 ^ 53 = 2 ^ d * 2 ^ (53 - d))
          by (rewrite <- Z.pow_add_r by lia; f_equal; lia).
        assert (0 < 2 ^ (53 - d)) by (apply Z.pow_pos_nonneg; lia).
        rewrite E1, E2.
        split; [apply Z.mul_le_mono_nonneg_r | apply Z.mul_lt_mono_pos_r]; lia. }
      rewrite binary_round_aux_exact by (assumption || lia).
      repeat split; assumption. }
  destruct Hnorm as (X & Hn & HX & HdX).
  exists X. split; [|split; assumption].
  unfold f64_of_Z. rewrite Hn. apply Prim2SF_SF2Prim.
  unfold SpecFloat.valid_binary, bounded, canonical_mantissa. rewrite HdX.
  apply andb_true_intro. split.
  - apply Z.eqb_eq. unfold fexp, SpecFloat.emin, FloatOps.prec, FloatOps.emax.
    pose proof (Pos2Z.is_pos (digits2_pos p)). fold d in H. lia.
  - apply Z.leb_le. unfold FloatOps.prec, FloatOps.emax. lia.
Qed.

Lemma Prim2SF_RAND_MAX :
  Prim2SF (f64_of_Z RAND_MAX) = S754_finite false RAND_MAX_mantissa (-22).
Proof. vm_compute. reflexivity. Qed.

Lemma SFdiv_by_RAND_MAX (X : positive) (ex : Z) :
  Z.pos (digits2_pos X) = 53 -> -52 <= ex <= -22 ->
  (ex = -22 -> Z.pos X <= Z.pos RAND_MAX_mantissa) ->
  let r := SFdiv 53 1024 (S754_finite false X ex) (S754_finite false RAND_MAX_mantissa (-22)) in
  SFleb (S754_zero false) r = true /\ SFleb r SF_one = true.
Proof.
  intros HdX Hex Hle r. subst r.
  assert (Hcase : (ex = -22 /\ X = RAND_MAX_mantissa) \/
                  (ex < -22 \/ Z.pos X < Z.pos RAND_MAX_mantissa)).
  { destruct (Z.eq_dec ex (-22)) as [E|E]; [|right; left; lia].
    destruct (Z.eq_dec (Z.pos X) (Z.pos RAND_MAX_mantissa)) as [HXY|HXY].
    - left. split; [assumption | congruence].
    - right. right. specialize (Hle E). lia. }
  destruct Hcase as [[-> ->] | Hgen]; [split; vm_compute; reflexivity|].
  unfold SFdiv, SFdiv_core_binary. cbn [Zdigits2]. rewrite HdX.
  change (Z.pos (digits2_pos RAND_MAX_mantissa)) with 53.
  replace (Z.min (fexp 53 1024 (53 + ex - (53 + -22))) (ex - -22)) with (ex - 31)
    by (unfold fexp, emin; lia).
  replace (ex - -22 - (ex - 31)) with 53 by lia.
  rewrite Z.shiftl_mul_pow2 by lia.
  pose proof (Z_div_mod (Z.pos X * 2 ^ 53) (Z.pos RAND_MAX_mantissa) eq_refl) as Hdiv.
  destruct (Z.div_eucl (Z.pos X * 2 ^ 53) (Z.pos RAND_MAX_mantissa)) as [q rem].
  destruct Hdiv as [Heq Hrem].
  pose proof (digits2_pos_bounds X) as HX. rewrite HdX in HX.
  change (2 ^ (53 - 1)) with 4503599627370496 in HX.
  change (2 ^ 53) with 9007199254740992 in HX, Heq.
  unfold RAND_MAX_mantissa in *.
  assert (Hq : 4503599627370496 <= q < 18014398509481984) by lia.
  destruct q as [|q|q]; try lia.
  change (xorb false false) with false.
  destruct (Z_lt_le_dec (Z.pos q) 9007199254740992) as [Hsmall|Hbig].
  - assert (Hdq : Z.pos (digits2_pos q) = 53).
    { apply digits2_pos_unique.
      change (2 ^ (53 - 1)) with 4503599627370496.
      change (2 ^ 53) with 9007199254740992. lia. }
    destruct (binary_round_aux_53 false q (ex - 31) (new_location 9007199250546688 rem) Hdq)
      as (m & e' & -> & Hcases); try lia.
    split; [reflexivity|]. apply SFleb_one.
    destruct Hcases as [(-> & _) | (-> & ->)]; lia.
  - assert (Hdq : Z.pos (digits2_pos q) = 54).
    { apply digits2_pos_unique.
      change (2 ^ (54 - 1)) with 9007199254740992.
      change (2 ^ 54) with 18014398509481984. lia. }
    assert (Hlt : ex < -22) by lia.
    destruct (binary_round_aux_54 false q (ex - 31) (new_location 9007199250546688 rem) Hdq)
      as (m & e' & -> & Hcases); try lia.
    split; [reflexivity|]. apply SFleb_one.
    destruct Hcases as [[-> _] | [-> ->]]; lia.
Qed.

(** Every draw [double(rand()) / double(RAND_MAX)] lies between 0 and 1,
    both ends included. *)
Lemma unit_draw_range (r : Z) :
  0 <= r <= RAND_MAX ->
  (0 <=? unit_draw r)%float = true /\ (unit_draw r <=? 1)%float = true.
Proof.
  intros Hr. destruct r as [|p|p]; [split; vm_compute; reflexivity| |lia].
  unfold unit_draw. rewrite !FloatAxioms.leb_spec, !FloatAxioms.div_spec, Prim2SF_RAND_MAX.
  change (Prim2SF 0) with (S754_zero false). change (Prim2SF 1) with SF_one.
  assert (Hp : Z.pos p < 2 ^ 31) by (unfold RAND_MAX in Hr; lia).
  pose proof (digits2_pos_bounds p) as [Hl Hu].
  assert (Hd : Z.pos (digits2_pos p) <= 31).
  { destruct (Z_le_gt_dec (Z.pos (digits2_pos p)) 31) as [|Hgt]; [assumption|].
    assert (2 ^ 31 <= 2 ^ (Z.pos (digits2_pos p) - 1)) by (apply Z.pow_le_mono_r; lia). lia. }
  destruct (Prim2SF_f64_of_Z p) as (X & -> & HX & HdX); [lia|].
  apply SFdiv_by_RAND_MAX; [assumption | lia |].
  intros Hex. assert (E : Z.pos (digits2_pos p) = 31) by lia.
  rewrite HX, E. unfold RAND_MAX_mantissa, RAND_MAX in *. simpl. lia.
Qed.

Lemma f64_of_Z_exact (z : Z) : 0 <= z < 2 ^ 53 -> double_is_integer (f64_of_Z z) z.
Proof.
  intros Hz. destruct z as [|p|p]; [reflexivity| |lia].
  assert (Hd : Z.pos (digits2_pos p) <= 53).
  { pose proof (digits2_pos_bounds p) as [Hl _].
    destruct (Z_le_gt_dec (Z.pos (digits2_pos p)) 53) as [|Hgt]; [assumption|].
    assert (2 ^ 53 <= 2 ^ (Z.pos (digits2_pos p) - 1)) by (apply Z.pow_le_mono_r; lia). lia. }
  destruct (Prim2SF_f64_of_Z p Hd) as (X & HX & HXv & _).
  unfold double_is_integer. rewrite HX. split; [lia|].
  cbn [cond_Zopp]. rewrite HXv. f_equal. f_equal. lia.
Qed.

(** ** Loops *)

Lemma for_range_invariant {St : Type} (Inv : nat -> St -> Prop) (body : nat -> St -> St) :
  forall (count i : nat) (s : St),
    (forall j s', (i <= j < i + count)%nat -> Inv j s' -> Inv (S j) (body j s')) ->
    Inv i s -> Inv (i + count)%nat (for_range i count body s).
Proof.
  induction count as [|count IH]; intros i s Hstep Hi; simpl.
  - now rewrite Nat.add_0_r.
  - replace (i + S count)%nat with (S i + count)%nat by lia.
    apply IH.
    + intros j s' Hj. apply Hstep. lia.
    + apply Hstep; [lia | assumption].
Qed.

Lemma for_loop_invariant {St : Type} (Inv : nat -> St -> Prop) (body : nat -> St -> St)
    (n : nat) (s : St) :
  (forall j s', (j < n)%nat -> Inv j s' -> Inv (S j) (body j s')) ->
  Inv 0%nat s -> Inv n (for_loop n body s).
Proof.
  intros Hstep H0. unfold for_loop.
  apply (for_range_invariant Inv body n 0 s); [|assumption].
  intros j s' Hj. apply Hstep. lia.
Qed.

(** ** The timed loop *)

Section MeasureFacts.
Variable world : Type.
Variable scalar_at : scalar_type.
Variable dimensions_ak : nat.

Abbreviation kern := (metric_at world scalar_at).
Abbreviation mach := (machine world).

Lemma call_contender_run (metric : kern) (p : vectors_pair_gt.t scalar_at) (m : mach) :
  call_contender world scalar_at dimensions_ak metric p m =
  (Next (fold_results (fst (kernel_run world scalar_at dimensions_ak metric p (kworld m)))),
   after_calls world m (snd (kernel_run world scalar_at dimensions_ak metric p (kworld m)))
     [(Contender, (0, 0)%float)]).
Proof.
  unfold call_contender, bind, call_kernel, kernel_run.
  destruct (metric _ _ _ _ _) as [r w]. reflexivity.
Qed.

Lemma call_baseline_run (baseline : kern) (p : vectors_pair_gt.t scalar_at) (m : mach) :
  call_baseline world scalar_at dimensions_ak baseline p m =
  (Next (fold_results (fst (kernel_run world scalar_at dimensions_ak baseline p (kworld m)))),
   after_calls world m (snd (kernel_run world scalar_at dimensions_ak baseline p (kworld m)))
     [(Baseline, (0, 0)%float)]).
Proof.
  unfold call_baseline, bind, call_kernel, kernel_run.
  destruct (baseline _ _ _ _ _) as [r w]. reflexivity.
Qed.

Lemma timed_loop_run (metric : kern) (p : vectors_pair_gt.t scalar_at) :
  forall (n : nat) (c : float) (iterations : Z) (m : mach),
    repeat_proc n (loop_body world scalar_at dimensions_ak metric p) (c, iterations) m =
    (Next (default c (last (map fold_results
                              (fst (kernel_runs world scalar_at dimensions_ak metric p n (kworld m))))),
           Nat.iter n (fun i => wrap64 (i + 1)) iterations),
     after_calls world m (snd (kernel_runs world scalar_at dimensions_ak metric p n (kworld m)))
       (replicate n (Contender, (0, 0)%float))).
Proof.
  induction n as [|n IH]; intros c iterations m.
  - simpl. unfold ret, after_calls. rewrite app_nil_r. now destruct m.
  - cbn [repeat_proc]. unfold bind at 1. unfold loop_body at 1.
    unfold bind at 1. rewrite call_contender_run. unfold ret at 1.
    rewrite IH. cbn [kernel_runs after_calls kworld calls state rng].
    destruct (kernel_run world scalar_at dimensions_ak metric p (kworld m)) as [r w] eqn:Er.
    cbn [fst snd].
    destruct (kernel_runs world scalar_at dimensions_ak metric p n w) as [rs w'] eqn:Ers.
    cbn [fst snd map]. f_equal.
    + f_equal. f_equal.
      * rewrite last_cons. now destruct (last (map fold_results rs)).
      * rewrite Nat.iter_succ_r. reflexivity.
    + unfold after_calls. cbn [state rng kworld calls]. f_equal.
      rewrite <- app_assoc. reflexivity.
Qed.
End MeasureFacts.

Section MeasureRun.
Variable world : Type.
Variable scalar_at : scalar_type.
Variable dimensions_ak : nat.

Lemma iterations_closed (n : nat) :
  Nat.iter n (fun i => wrap64 (i + 1)) 0 = wrap64 (Z.of_nat n).
Proof.
  induction n as [|n IH].
  - reflexivity.
  - rewrite Nat.iter_succ, IH. unfold wrap64.
    rewrite Nat2Z.inj_succ, <- Z.add_1_r. now rewrite Zplus_mod_idemp_l.
Qed.

Lemma measure_timed_run (metric baseline : metric_at world scalar_at) (m : machine world) :
  measure_timed world scalar_at dimensions_ak metric baseline m =
  (Next (input_pair world scalar_at dimensions_ak m,
         reference_value world scalar_at dimensions_ak baseline m,
         last_contender_value world scalar_at dimensions_ak metric baseline m,
         wrap64 (Z.of_nat (max_iterations (state m)))),
   {| state := state m;
      rng := snd (vectors_pair_gt.randomize scalar_at dimensions_ak
                    (vectors_pair_gt.init scalar_at dimensions_ak) (rng m));
      kworld := snd (contender_outputs world scalar_at dimensions_ak metric baseline m);
      calls := calls m ++ (Baseline, (0, 0)%float)
                 :: replicate (max_iterations (state m)) (Contender, (0, 0)%float) |}).
Proof.
  unfold measure_timed. unfold bind at 1. unfold pair_randomize.
  unfold last_contender_value, contender_values, contender_outputs, reference_value,
    baseline_output, input_pair.
  destruct (vectors_pair_gt.randomize scalar_at dimensions_ak _ (rng m)) as [p g] eqn:Ep.
  cbn [fst snd]. unfold bind at 1. rewrite call_baseline_run.
  cbn [kworld]. unfold bind at 1. unfold get_state at 1. unfold bind at 1.
  change (fun '(c, iterations) =>
            bind (call_contender world scalar_at dimensions_ak metric p)
                 (fun c0 => ret (c0, wrap64 (iterations + 1))))
    with (loop_body world scalar_at dimensions_ak metric p).
  rewrite timed_loop_run. unfold after_calls. cbn [state rng kworld calls].
  rewrite iterations_closed. unfold ret. rewrite <- app_assoc. reflexivity.
Qed.

Lemma measure_run (function_kind : function_kind_t)
    (metric baseline : metric_at world scalar_at) (m : machine world) :
  call (measure world scalar_at dimensions_ak function_kind metric baseline) m =
  (tt, final_machine world scalar_at dimensions_ak metric baseline m).
Proof.
  unfold call, measure. unfold bind at 1. rewrite measure_timed_run.
  reflexivity.
Qed.
End MeasureRun.

(** ** The input generator *)

Lemma list_of_lookups {A : Type} (l : list A) (n : nat) (f : nat -> A) :
  length l = n -> (forall j, (j < n)%nat -> l !! j = Some (f j)) -> l = map f (seq 0 n).
Proof.
  intros Hlen Hl. apply list_eq. intros j.
  destruct (decide (j < n)%nat) as [Hj|Hj].
  - rewrite Hl by assumption. rewrite list_lookup_fmap, lookup_seq_lt by assumption.
    reflexivity.
  - rewrite lookup_ge_None_2 by lia.
    rewrite list_lookup_fmap, lookup_seq_ge by lia. reflexivity.
Qed.

Lemma sum_squares_snoc (ds : list float) (d : float) :
  sum_squares (ds ++ [d]) = (sum_squares ds + d * d)%float.
Proof. unfold sum_squares. now rewrite fold_left_app. Qed.

Lemma a_draws_S (g : rand_state) (k : nat) :
  a_draws g (S k) = a_draws g k ++ [unit_draw (nth_draw g (2 * k))].
Proof. unfold a_draws. now rewrite seq_S, map_app. Qed.

Lemma b_draws_S (g : rand_state) (k : nat) :
  b_draws g (S k) = b_draws g k ++ [unit_draw (nth_draw g (2 * k + 1))].
Proof. unfold b_draws. now rewrite seq_S, map_app. Qed.

Section RandomizeFacts.
Variable scalar_at : scalar_type.
Variable dimensions_ak : nat.

Abbreviation T := (carrier scalar_at).
Abbreviation pair_t := (vectors_pair_gt.t scalar_at).
Abbreviation pa := (vectors_pair_gt.a scalar_at).
Abbreviation pb := (vectors_pair_gt.b scalar_at).
Abbreviation sized := (sized scalar_at dimensions_ak).

Lemma init_sized : sized (vectors_pair_gt.init scalar_at dimensions_ak).
Proof. split; apply length_replicate. Qed.

Lemma set_cells (p : pair_t) (k : nat) (x y : T) (fa fb : nat -> T) :
  (k < dimensions_ak)%nat -> sized p ->
  (forall j, (j < k)%nat -> pa p !! j = Some (fa j)) ->
  (forall j, (j < k)%nat -> pb p !! j = Some (fb j)) ->
  x = fa k -> y = fb k ->
  let p' := vectors_pair_gt.set_b scalar_at k y (vectors_pair_gt.set_a scalar_at k x p) in
  sized p' /\
  (forall j, (j < S k)%nat -> pa p' !! j = Some (fa j)) /\
  (forall j, (j < S k)%nat -> pb p' !! j = Some (fb j)).
Proof.
  intros Hk [Ha Hb] Hfa Hfb -> ->. cbn.
  split; [split; cbn; now rewrite length_insert|].
  split; intros j Hj; destruct (decide (j = k)) as [->|Hne].
  - apply list_lookup_insert_eq. lia.
  - rewrite list_lookup_insert_ne by congruence. apply Hfa. lia.
  - apply list_lookup_insert_eq. lia.
  - rewrite list_lookup_insert_ne by congruence. apply Hfb. lia.
Qed.

Section Integral.
Variable of_int : Z -> T.
Hypothesis Hsort : sort scalar_at = integral_scalar of_int.

Lemma fill_integral (p : pair_t) (g : rand_state) :
  sized p ->
  let s := for_loop dimensions_ak (vectors_pair_gt.fill_step scalar_at)
             {| vectors_pair_gt.fs_pair := p; vectors_pair_gt.fs_rand := g;
                vectors_pair_gt.a2_sum := 0; vectors_pair_gt.b2_sum := 0 |} in
  vectors_pair_gt.fs_rand _ s = drawn g (2 * dimensions_ak) /\
  pa (vectors_pair_gt.fs_pair _ s)
    = map (fun j => of_int (nth_draw g (2 * j))) (seq 0 dimensions_ak) /\
  pb (vectors_pair_gt.fs_pair _ s)
    = map (fun j => of_int (nth_draw g (2 * j + 1))) (seq 0 dimensions_ak).
Proof.
  intros Hp s.
  pose (Inv := fun (k : nat) (s : vectors_pair_gt.fill_state scalar_at) =>
    vectors_pair_gt.fs_rand _ s = drawn g (2 * k) /\
    sized (vectors_pair_gt.fs_pair _ s) /\
    (forall j, (j < k)%nat ->
       pa (vectors_pair_gt.fs_pair _ s) !! j = Some (of_int (nth_draw g (2 * j)))) /\
    (forall j, (j < k)%nat ->
       pb (vectors_pair_gt.fs_pair _ s) !! j = Some (of_int (nth_draw g (2 * j + 1))))).
  assert (H : Inv dimensions_ak s).
  { apply for_loop_invariant.
    - intros k s' Hk (Hr & Hs & Ha & Hb). unfold Inv, vectors_pair_gt.fill_step.
      rewrite Hsort, Hr. cbn [rand drawn draws cursor vectors_pair_gt.fs_rand
        vectors_pair_gt.fs_pair].
      split; [unfold drawn; f_equal; lia|].
      apply (set_cells _ k _ _ (fun j => of_int (nth_draw g (2 * j)))
               (fun j => of_int (nth_draw g (2 * j + 1)))); auto.
      unfold nth_draw. do 2 f_equal. lia.
    - unfold Inv. cbn. repeat split; try apply Hp; try (intros; lia).
      unfold drawn. destruct g; cbn. f_equal. lia. }
  destruct H as (Hr & [Hla Hlb] & Ha & Hb).
  split; [assumption|]. split; apply list_of_lookups; assumption.
Qed.

Lemma randomize_integral (g : rand_state) :
  vectors_pair_gt.randomize scalar_at dimensions_ak
    (vectors_pair_gt.init scalar_at dimensions_ak) g =
  ({| vectors_pair_gt.a := map (fun j => of_int (nth_draw g (2 * j))) (seq 0 dimensions_ak);
      vectors_pair_gt.b := map (fun j => of_int (nth_draw g (2 * j + 1))) (seq 0 dimensions_ak) |},
   drawn g (2 * dimensions_ak)).
Proof.
  unfold vectors_pair_gt.randomize. rewrite Hsort.
  destruct (fill_integral _ g init_sized) as (Hr & Ha & Hb).
  rewrite Hr. f_equal.
  destruct (vectors_pair_gt.fs_pair _ _) as [xa xb]. cbn in Ha, Hb. now subst.
Qed.
End Integral.

Section Floating.
Variable of_double : float -> T.
Variable to_double : T -> float.
Hypothesis Hsort : sort scalar_at = floating_scalar of_double to_double.

Lemma fill_floating (p : pair_t) (g : rand_state) :
  sized p ->
  let s := for_loop dimensions_ak (vectors_pair_gt.fill_step scalar_at)
             {| vectors_pair_gt.fs_pair := p; vectors_pair_gt.fs_rand := g;
                vectors_pair_gt.a2_sum := 0; vectors_pair_gt.b2_sum := 0 |} in
  vectors_pair_gt.fs_rand _ s = drawn g (2 * dimensions_ak) /\
  vectors_pair_gt.a2_sum _ s = sum_squares (a_draws g dimensions_ak) /\
  vectors_pair_gt.b2_sum _ s = sum_squares (b_draws g dimensions_ak) /\
  sized (vectors_pair_gt.fs_pair _ s) /\
  (forall j, (j < dimensions_ak)%nat ->
     pa (vectors_pair_gt.fs_pair _ s) !! j
       = Some (of_double (unit_draw (nth_draw g (2 * j))))) /\
  (forall j, (j < dimensions_ak)%nat ->
     pb (vectors_pair_gt.fs_pair _ s) !! j
       = Some (of_double (unit_draw (nth_draw g (2 * j + 1))))).
Proof.
  intros Hp s.
  pose (Inv := fun (k : nat) (s : vectors_pair_gt.fill_state scalar_at) =>
    vectors_pair_gt.fs_rand _ s = drawn g (2 * k) /\
    vectors_pair_gt.a2_sum _ s = sum_squares (a_draws g k) /\
    vectors_pair_gt.b2_sum _ s = sum_squares (b_draws g k) /\
    sized (vectors_pair_gt.fs_pair _ s) /\
    (forall j, (j < k)%nat ->
       pa (vectors_pair_gt.fs_pair _ s) !! j
         = Some (of_double (unit_draw (nth_draw g (2 * j))))) /\
    (forall j, (j < k)%nat ->
       pb (vectors_pair_gt.fs_pair _ s) !! j
         = Some (of_double (unit_draw (nth_draw g (2 * j + 1)))))).
  change (Inv dimensions_ak s).
  apply for_loop_invariant.
  - intros k s' Hk (Hr & Hsa & Hsb & Hs & Ha & Hb). unfold Inv, vectors_pair_gt.fill_step.
    rewrite Hsort, Hr. cbn [rand drawn draws cursor vectors_pair_gt.fs_rand
      vectors_pair_gt.fs_pair vectors_pair_gt.a2_sum vectors_pair_gt.b2_sum].
    replace (cursor g + 2 * k)%nat with (cursor g + (2 * k))%nat by lia.
    replace (S (cursor g + 2 * k))%nat with (cursor g + (2 * k + 1))%nat by lia.
    fold (nth_draw g (2 * k)). fold (nth_draw g (2 * k + 1)).
    fold (unit_draw (nth_draw g (2 * k))). fold (unit_draw (nth_draw g (2 * k + 1))).
    split; [unfold drawn; f_equal; lia|].
    split; [now rewrite a_draws_S, sum_squares_snoc, Hsa|].
    split; [now rewrite b_draws_S, sum_squares_snoc, Hsb|].
    apply (set_cells _ k _ _ (fun j => of_double (unit_draw (nth_draw g (2 * j))))
             (fun j => of_double (unit_draw (nth_draw g (2 * j + 1))))); auto.
  - unfold Inv. cbn. repeat split; try apply Hp; try (intros; lia).
    unfold drawn. destruct g; cbn. f_equal. lia.
Qed.

Lemma normalize_floating (p : pair_t) (a2 b2 : float) (fa fb : nat -> T) :
  sized p ->
  (forall j, (j < dimensions_ak)%nat -> pa p !! j = Some (fa j)) ->
  (forall j, (j < dimensions_ak)%nat -> pb p !! j = Some (fb j)) ->
  let p' := for_loop dimensions_ak (vectors_pair_gt.normalize_step scalar_at a2 b2) p in
  pa p' = map (fun j => of_double (to_double (fa j) / a2)%float) (seq 0 dimensions_ak) /\
  pb p' = map (fun j => of_double (to_double (fb j) / b2)%float) (seq 0 dimensions_ak).
Proof.
  intros Hp Ha Hb p'.
  pose (Inv := fun (k : nat) (q : pair_t) =>
    sized q /\
    ((forall j, (j < k)%nat -> pa q !! j = Some (of_double (to_double (fa j) / a2)%float)) /\
     (forall j, (j < k)%nat -> pb q !! j = Some (of_double (to_double (fb j) / b2)%float))) /\
    (forall j, (k <= j < dimensions_ak)%nat -> pa q !! j = Some (fa j)) /\
    (forall j, (k <= j < dimensions_ak)%nat -> pb q !! j = Some (fb j))).
  assert (H : Inv dimensions_ak p').
  { apply for_loop_invariant.
    - intros k q Hk (Hs & [Hna Hnb] & Hra & Hrb). unfold Inv, vectors_pair_gt.normalize_step.
      rewrite Hsort.
      cbn [vectors_pair_gt.set_a vectors_pair_gt.set_b vectors_pair_gt.a vectors_pair_gt.b].
      unfold vectors_pair_gt.get. rewrite (Hra k), (Hrb k) by lia. cbn [default].
      destruct (set_cells q k (of_double (to_double (fa k) / a2)%float)
                  (of_double (to_double (fb k) / b2)%float)
                  (fun j => of_double (to_double (fa j) / a2)%float)
                  (fun j => of_double (to_double (fb j) / b2)%float))
        as (Hs' & Hna' & Hnb'); auto.
      cbn [vectors_pair_gt.set_a vectors_pair_gt.set_b vectors_pair_gt.a vectors_pair_gt.b]
        in Hs', Hna', Hnb'.
      split; [exact Hs'|]. split; [split; assumption|].
      split; intros j Hj; cbn; rewrite list_lookup_insert_ne by lia;
        [apply Hra | apply Hrb]; lia.
    - unfold Inv. repeat split; try apply Hp; try (intros; lia).
      + intros j Hj. apply Ha. lia.
      + intros j Hj. apply Hb. lia. }
  destruct H as ([Hla Hlb] & [Hna Hnb] & _).
  split; apply list_of_lookups; assumption.
Qed.

Lemma randomize_floating (g : rand_state) :
  vectors_pair_gt.randomize scalar_at dimensions_ak
    (vectors_pair_gt.init scalar_at dimensions_ak) g =
  ({| vectors_pair_gt.a :=
        map (fun d => of_double
               (to_double (of_double d) / PrimFloat.sqrt (sum_squares (a_draws g dimensions_ak)))%float)
            (a_draws g dimensions_ak);
      vectors_pair_gt.b :=
        map (fun d => of_double
               (to_double (of_double d) / PrimFloat.sqrt (sum_squares (b_draws g dimensions_ak)))%float)
            (b_draws g dimensions_ak) |},
   drawn g (2 * dimensions_ak)).
Proof.
  unfold vectors_pair_gt.randomize. rewrite Hsort.
  destruct (fill_floating _ g init_sized) as (Hr & Hsa & Hsb & Hs & Ha & Hb).
  rewrite Hr, Hsa, Hsb. f_equal.
  destruct (normalize_floating _ (PrimFloat.sqrt (sum_squares (a_draws g dimensions_ak)))
              (PrimFloat.sqrt (sum_squares (b_draws g dimensions_ak))) _ _ Hs Ha Hb)
    as [Hna Hnb].
  destruct (for_loop dimensions_ak (vectors_pair_gt.normalize_step _ _ _) _) as [xa xb].
  cbn in Hna, Hnb. rewrite Hna, Hnb.
  unfold a_draws, b_draws. rewrite !map_map. reflexivity.
Qed.
End Floating.
End RandomizeFacts.

(** ** Draws that are all 0 *)

Lemma map_const_seq {A : Type} (v : A) (n start : nat) :
  map (fun _ => v) (seq start n) = replicate n v.
Proof.
  revert start. induction n as [|n IH]; intros start; [reflexivity|].
  cbn. now rewrite IH.
Qed.

Lemma sum_squares_zeros (n : nat) : sum_squares (replicate n 0%float) = 0%float.
Proof.
  unfold sum_squares.
  induction n as [|n IH]; [reflexivity|]. cbn [replicate fold_left].
  change (0 + 0 * 0)%float with 0%float. exact IH.
Qed.






(** ** The catalog *)

Section CatalogFacts.
Variable hardware_concurrency : Z.

Lemma register_body (scalar_at : scalar_type) (function_kind : function_kind_t)
    (name distance_func baseline_func : string) (s : process) :
  register_ hardware_concurrency scalar_at function_kind name distance_func baseline_func s =
  (Returned tt,
   with_cases s [registered_case hardware_concurrency scalar_at function_kind name
                   distance_func baseline_func]).
Proof.
  unfold register_, bind, RegisterBenchmark, MinTime, Threads, update_case, modify, ret,
    return_, bind. cbn [registry stdout engine_log].
  unfold with_cases, registered_case. f_equal. f_equal.
  rewrite !alter_app_r_alt by lia. rewrite Nat.sub_diag. cbn [alter list_alter].
  cbn [case_name case_fn case_min_time case_threads]. reflexivity.
Qed.

Lemma registers_register (scalar_at : scalar_type) (function_kind : function_kind_t)
    (name distance_func baseline_func : string) :
  registers (invoke_proc (register_ hardware_concurrency scalar_at function_kind name
                            distance_func baseline_func)).
Proof.
  intros s. eexists. unfold invoke_proc, call. rewrite register_body. reflexivity.
Qed.

Lemma registers_ret : registers (ret tt).
Proof.
  intros s. exists []. unfold ret, with_cases. rewrite app_nil_r. now destruct s.
Qed.

Lemma with_cases_app (s : process) (xs ys : list BenchmarkCase) :
  with_cases (with_cases s xs) ys = with_cases s (xs ++ ys).
Proof. unfold with_cases. cbn. now rewrite app_assoc. Qed.

Lemma registers_bind (c : proc process Z unit) (k : proc process Z unit) :
  registers c -> registers k -> registers (bind c (fun _ => k)).
Proof.
  intros Hc Hk s. destruct (Hc s) as [xs Hxs].
  destruct (Hk (with_cases s xs)) as [ys Hys].
  exists (xs ++ ys). unfold bind. rewrite Hxs, Hys. now rewrite with_cases_app.
Qed.

Lemma registers_if (flag : bool) (c : proc process Z unit) :
  registers c -> registers (if flag then c else ret tt).
Proof. intros Hc. destruct flag; [assumption | apply registers_ret]. Qed.

Lemma runs_all_bind (c : proc process Z unit) (k : proc process Z Z) :
  registers c -> runs_all k -> runs_all (bind c (fun _ => k)).
Proof.
  intros Hc Hk s. destruct (Hc s) as [xs Hxs].
  destruct (Hk (with_cases s xs)) as [ys Hys].
  exists (xs ++ ys). unfold bind. rewrite Hxs, Hys. unfold finished, with_cases. cbn.
  now rewrite !app_assoc.
Qed.

Lemma runs_all_tail :
  runs_all (bind get_state (fun s =>
            bind (log_event (RanSpecifiedBenchmarks (registry s))) (fun _ =>
            bind (log_event ShutDown) (fun _ => return_ 0)))).
Proof.
  intros s. exists []. unfold bind, get_state, log_event, modify, return_, finished. cbn.
  rewrite app_nil_r, <- app_assoc. reflexivity.
Qed.

Variables SIMSIMD_TARGET_NEON SIMSIMD_TARGET_SVE SIMSIMD_TARGET_HASWELL
          SIMSIMD_TARGET_SKYLAKE SIMSIMD_TARGET_ICE SIMSIMD_TARGET_SAPPHIRE
          SIMSIMD_NATIVE_F16 : bool.
Variable Initialize : list string -> list string.
Variable ReportUnrecognizedArguments : list string -> bool.

Abbreviation announced :=
  (announced SIMSIMD_TARGET_NEON SIMSIMD_TARGET_SVE SIMSIMD_TARGET_HASWELL
     SIMSIMD_TARGET_SKYLAKE SIMSIMD_TARGET_ICE SIMSIMD_TARGET_SAPPHIRE SIMSIMD_NATIVE_F16).
Abbreviation main_post :=
  (main_post SIMSIMD_TARGET_NEON SIMSIMD_TARGET_SVE SIMSIMD_TARGET_HASWELL
     SIMSIMD_TARGET_SKYLAKE SIMSIMD_TARGET_ICE SIMSIMD_TARGET_SAPPHIRE SIMSIMD_NATIVE_F16
     Initialize ReportUnrecognizedArguments).
Abbreviation main_ :=
  (main hardware_concurrency SIMSIMD_TARGET_NEON SIMSIMD_TARGET_SVE SIMSIMD_TARGET_HASWELL
     SIMSIMD_TARGET_SKYLAKE SIMSIMD_TARGET_ICE SIMSIMD_TARGET_SAPPHIRE SIMSIMD_NATIVE_F16
     Initialize ReportUnrecognizedArguments).

Ltac registration :=
  lazymatch goal with
  | |- registers (invoke_proc (register_ _ ?t ?k ?n ?f ?g)) =>
      exact (registers_register t k n f g)
  | |- registers (ret tt) => exact registers_ret
  | |- registers (if ?flag then ?c else ret tt) =>
      refine (registers_if flag c _); registration
  | |- registers (bind ?c (fun _ => ?k)) =>
      refine (registers_bind c k _ _); registration
  end.

Ltac registrations :=
  lazymatch goal with
  | |- runs_all (bind get_state _) => exact runs_all_tail
  | |- runs_all (bind ?c (fun _ => ?k)) =>
      refine (runs_all_bind c k _ _); [registration | registrations]
  end.

Lemma main_run (argv : list string) (s : process) : main_post argv s (main_ argv s).
Proof.
  unfold main. cbv zeta.
  repeat lazymatch goal with
  | |- main_post ?a ?s0 (bind (printf ?l) ?k ?s1) =>
      change (main_post a s0
                (k tt {| stdout := stdout s1 ++ [l]; registry := registry s1;
                         engine_log := engine_log s1 |}));
      cbv beta; cbn [stdout registry engine_log]
  | |- main_post ?a ?s0 (bind (log_event ?e) ?k ?s1) =>
      change (main_post a s0
                (k tt {| stdout := stdout s1; registry := registry s1;
                         engine_log := engine_log s1 ++ [e] |}));
      cbv beta; cbn [stdout registry engine_log]
  end.
  unfold main_post.
  destruct (ReportUnrecognizedArguments (Initialize argv)).
  - unfold bind at 1. unfold return_ at 1. cbv beta iota.
    unfold announced. repeat rewrite <- app_assoc. reflexivity.
  - lazymatch goal with
    | |- ex (fun cases => bind (ret tt) (fun _ => bind ?c ?k) ?s1 = _) =>
        assert (Hk : runs_all (bind c k));
        [| destruct (Hk s1) as [cases Hcases]; exists cases;
           change (bind c k s1 = (Returned 0, finished (announced argv s) cases)) ]
    end.
    + registrations.
    + rewrite Hcases.
      unfold finished, announced. cbn [stdout registry engine_log].
      repeat rewrite <- app_assoc. reflexivity.
Qed.
End CatalogFacts.

(** ** The counters of a run *)

Section Reported.
Variable world : Type.
Variable scalar_at : scalar_type.
Variable dimensions_ak : nat.
Variable function_kind : function_kind_t.
Variables metric baseline : metric_at world scalar_at.
Variable m : machine world.

Abbreviation rep := (reported world scalar_at dimensions_ak function_kind metric baseline m).
Abbreviation c_ref := (reference_value world scalar_at dimensions_ak baseline m).
Abbreviation c_last := (last_contender_value world scalar_at dimensions_ak metric baseline m).

Lemma reported_final :
  rep = counters (state (final_machine world scalar_at dimensions_ak metric baseline m)).
Proof. unfold reported. now rewrite measure_run. Qed.

Lemma reported_relative_error :
  rep !! "relative_error" =
  Some {| value := accuracy_error (accuracy_delta c_last c_ref) c_ref; cflags := kDefaults |}.
Proof. rewrite reported_final. cbn [final_machine state counters]. apply lookup_insert_eq. Qed.

Lemma reported_abs_delta :
  rep !! "abs_delta" = Some {| value := accuracy_delta c_last c_ref; cflags := kDefaults |}.
Proof.
  rewrite reported_final. cbn [final_machine state counters].
  rewrite lookup_insert_ne by done. apply lookup_insert_eq.
Qed.

Lemma reported_pairs :
  rep !! "pairs" =
  Some {| value := f64_of_Z (wrap64 (Z.of_nat (max_iterations (state m)))); cflags := kIsRate |}.
Proof.
  rewrite reported_final. cbn [final_machine state counters].
  rewrite !lookup_insert_ne by done. apply lookup_insert_eq.
Qed.

Lemma reported_bytes :
  rep !! "bytes" =
  Some {| value :=
            f64_of_Z (wrap64 (wrap64 (wrap64 (Z.of_nat (max_iterations (state m)))
                                      * wrap64 (Z.of_nat dimensions_ak * sizeof scalar_at)) * 2));
          cflags := kIsRate |}.
Proof.
  rewrite reported_final. cbn [final_machine state counters].
  rewrite !lookup_insert_ne by done. apply lookup_insert_eq.
Qed.
End Reported.

Lemma kernel_runs_length (world : Type) (scalar_at : scalar_type) (dimensions_ak : nat)
    (k : metric_at world scalar_at) (p : vectors_pair_gt.t scalar_at) :
  forall (n : nat) (w : world),
    length (fst (kernel_runs world scalar_at dimensions_ak k p n w)) = n.
Proof.
  induction n as [|n IH]; intros w; [reflexivity|].
  cbn [kernel_runs]. destruct (kernel_run _ _ _ k p w) as [r w'].
  specialize (IH w'). destruct (kernel_runs _ _ _ k p n w') as [rs w''].
  cbn in *. now rewrite IH.
Qed.

(** ** Properties of [measure] *)

(** C9.  The function kind handed to [measure] has no effect: whatever the
    pair type, the contender and the baseline, the run and each of its four
    counters are the same for any two values of the tag. *)
Theorem function_kind_has_no_effect
    (world : Type) (scalar_at : scalar_type) (dimensions_ak : nat)
    (kind1 kind2 : function_kind_t)
    (metric baseline : metric_at world scalar_at) (m : machine world) :
  let rep1 := reported world scalar_at dimensions_ak kind1 metric baseline m in
  let rep2 := reported world scalar_at dimensions_ak kind2 metric baseline m in
  call (measure world scalar_at dimensions_ak kind1 metric baseline) m =
  call (measure world scalar_at dimensions_ak kind2 metric baseline) m /\
  (is_Some (rep1 !! "bytes") /\ rep1 !! "bytes" = rep2 !! "bytes") /\
  (is_Some (rep1 !! "pairs") /\ rep1 !! "pairs" = rep2 !! "pairs") /\
  (is_Some (rep1 !! "abs_delta") /\ rep1 !! "abs_delta" = rep2 !! "abs_delta") /\
  (is_Some (rep1 !! "relative_error") /\
   rep1 !! "relative_error" = rep2 !! "relative_error").
Proof.
  intros rep1 rep2. subst rep1 rep2.
  split; [now rewrite !measure_run|].
  rewrite !reported_bytes, !reported_pairs, !reported_abs_delta, !reported_relative_error.
  repeat split; eauto.
Qed.

(** C3.  In a run of [measure] the baseline is called once, on a zeroed
    two-slot buffer, before the timed loop; each of the [n] iterations calls
    the contender alone, on a zeroed two-slot buffer; and the contender
    scalar that enters the accuracy comparison is the one of the last
    iteration (the initial 0 if the loop body never ran). *)
Theorem measure_calls_baseline_once_then_contender
    (world : Type) (scalar_at : scalar_type) (dimensions_ak : nat)
    (function_kind : function_kind_t)
    (metric baseline : metric_at world scalar_at) (m : machine world) :
  let n := max_iterations (state m) in
  let p := input_pair world scalar_at dimensions_ak m in
  let m' := snd (call (measure world scalar_at dimensions_ak function_kind metric baseline) m) in
  let base := kernel_run world scalar_at dimensions_ak baseline p (kworld m) in
  let timed := kernel_runs world scalar_at dimensions_ak metric p n (snd base) in
  calls m' = calls m ++ (Baseline, (0, 0)%float) :: replicate n (Contender, (0, 0)%float) /\
  kworld m' = snd timed /\
  length (fst timed) = n /\
  counters (state m') !! "abs_delta" =
    Some {| value := accuracy_delta (default 0%float (last (map fold_results (fst timed))))
                                    (fold_results (fst base));
            cflags := kDefaults |}.
Proof.
  intros n p m' base timed. subst m'. rewrite measure_run. cbn [snd].
  split; [reflexivity|]. split; [reflexivity|].
  split; [apply kernel_runs_length|].
  cbn [final_machine state counters].
  rewrite lookup_insert_ne by done. apply lookup_insert_eq.
Qed.

(** C7.  After [n] timed iterations on a pair of [s] bytes per vector the
    "bytes" counter holds [n * s * 2] and the "pairs" counter holds [n],
    both flagged as rates, as long as the product fits [std::size_t] (the
    pair type is not empty); below 2^53 the [double]s hold these integers
    exactly. *)
Theorem measure_rate_counters
    (world : Type) (scalar_at : scalar_type) (dimensions_ak : nat)
    (function_kind : function_kind_t)
    (metric baseline : metric_at world scalar_at) (m : machine world)
    (Hsize : 0 < sizeof scalar_at) (Hdims : (0 < dimensions_ak)%nat)
    (Hfits : Z.of_nat (max_iterations (state m))
             * (Z.of_nat dimensions_ak * sizeof scalar_at) * 2 < 2^64) :
  let n := Z.of_nat (max_iterations (state m)) in
  let s := Z.of_nat dimensions_ak * sizeof scalar_at in
  let rep := reported world scalar_at dimensions_ak function_kind metric baseline m in
  rep !! "bytes" = Some {| value := f64_of_Z (n * s * 2); cflags := kIsRate |} /\
  rep !! "pairs" = Some {| value := f64_of_Z n; cflags := kIsRate |} /\
  (n * s * 2 < 2^53 ->
   double_is_integer (f64_of_Z (n * s * 2)) (n * s * 2) /\
   double_is_integer (f64_of_Z n) n).
Proof.
  intros n s rep. subst rep. rewrite reported_bytes, reported_pairs.
  fold n. fold s. unfold wrap64.
  assert (Hn : 0 <= n) by (subst n; lia).
  assert (Hs : 1 <= s) by (subst s; nia).
  assert (Hns : 0 <= n * s) by (apply Z.mul_nonneg_nonneg; lia).
  assert (Hle : n * 1 <= n * s) by (apply Z.mul_le_mono_nonneg_l; lia).
  assert (Hfits' : n * s * 2 < 2^64) by exact Hfits.
  split; [|split].
  - destruct (Z.eq_dec n 0) as [Hz|Hz]; [rewrite Hz; reflexivity|].
    assert (Hsn : s * 1 <= s * n) by (apply Z.mul_le_mono_nonneg_l; lia).
    rewrite (Z.mod_small n), (Z.mod_small s) by lia.
    rewrite (Z.mod_small (n * s)) by lia.
    rewrite (Z.mod_small (n * s * 2)) by lia.
    reflexivity.
  - rewrite (Z.mod_small n) by lia. reflexivity.
  - intros Hexact. split; apply f64_of_Z_exact; lia.
Qed.

Lemma measure_rate_counters_witness :
  reported unit simsimd_f32_t 1536 distance_k dot_kernel dot_kernel
    (start tt 1000 (const_rand 7)) !! "bytes"
  = Some {| value := f64_of_Z (1000 * (1536 * 4) * 2); cflags := kIsRate |} /\
  double_is_integer (f64_of_Z (1000 * (1536 * 4) * 2)) (1000 * (1536 * 4) * 2).
Proof.
  assert (Hsize : 0 < sizeof simsimd_f32_t) by (cbn; lia).
  assert (Hdims : (0 < 1536)%nat) by lia.
  assert (Hfits : Z.of_nat (max_iterations (state (start tt 1000 (const_rand 7))))
                  * (Z.of_nat 1536 * sizeof simsimd_f32_t) * 2 < 2^64)
    by (cbn [start state max_iterations simsimd_f32_t sizeof]; lia).
  destruct (measure_rate_counters unit simsimd_f32_t 1536 distance_k dot_kernel dot_kernel
              (start tt 1000 (const_rand 7)) Hsize Hdims Hfits) as (Hbytes & _ & Hexact).
  split; [exact Hbytes|].
  apply Hexact. cbn [start state max_iterations simsimd_f32_t sizeof]. lia.
Defined.

(** C1, as amended.  The "relative_error" counter is the reported
    "abs_delta" divided by the reference value itself, sign included, when
    both are nonzero, and 0 otherwise.  For a reference value of 0 it is
    exactly 0, whatever the delta; and it agrees with the quotient by the
    absolute value of the reference whenever the reference is not negative. *)
Theorem relative_error_divides_by_signed_reference
    (world : Type) (scalar_at : scalar_type) (dimensions_ak : nat)
    (function_kind : function_kind_t)
    (metric baseline : metric_at world scalar_at) (m : machine world) :
  let c_baseline := reference_value world scalar_at dimensions_ak baseline m in
  let c := last_contender_value world scalar_at dimensions_ak metric baseline m in
  let delta := accuracy_delta c c_baseline in
  let rep := reported world scalar_at dimensions_ak function_kind metric baseline m in
  rep !! "abs_delta" = Some {| value := delta; cflags := kDefaults |} /\
  rep !! "relative_error" =
    Some {| value := if negb (delta =? 0)%float && negb (c_baseline =? 0)%float
                     then (delta / c_baseline)%float else 0%float;
            cflags := kDefaults |} /\
  ((c_baseline =? 0)%float = true ->
   rep !! "relative_error" = Some {| value := 0%float; cflags := kDefaults |}) /\
  ((c_baseline <? 0)%float = false ->
   rep !! "relative_error" =
     Some {| value := relative_error_as_specified delta c_baseline; cflags := kDefaults |}).
Proof.
  intros c_baseline c delta rep. subst rep.
  rewrite reported_abs_delta, reported_relative_error.
  fold c_baseline. fold c. fold delta. unfold accuracy_error.
  split; [reflexivity|]. split; [reflexivity|]. split.
  - intros ->. now rewrite andb_false_r.
  - intros Hneg. unfold relative_error_as_specified.
    destruct (abs_not_negative c_baseline Hneg) as [-> | ->]; [reflexivity|].
    now rewrite andb_false_r.
Qed.

Lemma relative_error_divides_by_signed_reference_witness :
  let m := start tt 1 (const_rand 5) in
  let metric := const_kernel float (2, 0)%float in
  let baseline := const_kernel float (0, 0)%float in
  reported unit simsimd_f64_t 2 distance_k metric baseline m !! "relative_error"
    = Some {| value := 0%float; cflags := kDefaults |} /\
  reported unit simsimd_f64_t 2 distance_k metric baseline m !! "relative_error"
    = Some {| value :=
                relative_error_as_specified
                  (accuracy_delta (last_contender_value unit simsimd_f64_t 2 metric baseline m)
                                  (reference_value unit simsimd_f64_t 2 baseline m))
                  (reference_value unit simsimd_f64_t 2 baseline m);
              cflags := kDefaults |}.
Proof.
  intros m metric baseline.
  destruct (relative_error_divides_by_signed_reference unit simsimd_f64_t 2 distance_k
              metric baseline m) as (_ & _ & Hzero & Hspec).
  split; [apply Hzero | apply Hspec]; vm_compute; reflexivity.
Defined.

(** C1, as stated, fails: with a baseline output of -1 and a contender
    output of -2 the delta is 1 and the counter is 1 / -1 = -1, where the
    quotient by the absolute value of the reference would be 1. *)
Lemma relative_error_negative_reference :
  let m := start tt 1 (const_rand 5) in
  let metric := const_kernel float (-2, 0)%float in
  let baseline := const_kernel float (-1, 0)%float in
  let delta := accuracy_delta (last_contender_value unit simsimd_f64_t 2 metric baseline m)
                              (reference_value unit simsimd_f64_t 2 baseline m) in
  delta = 1%float /\
  reference_value unit simsimd_f64_t 2 baseline m = (-1)%float /\
  reported unit simsimd_f64_t 2 distance_k metric baseline m !! "relative_error"
    = Some {| value := (-1)%float; cflags := kDefaults |} /\
  relative_error_as_specified delta (reference_value unit simsimd_f64_t 2 baseline m) = 1%float /\
  reported unit simsimd_f64_t 2 distance_k metric baseline m !! "relative_error"
    <> Some {| value :=
                 relative_error_as_specified delta (reference_value unit simsimd_f64_t 2 baseline m);
               cflags := kDefaults |}.
Proof.
  intros m metric baseline delta.
  split; [vm_compute; reflexivity|]. split; [vm_compute; reflexivity|].
  split; [vm_compute; reflexivity|]. split; [vm_compute; reflexivity|].
  intros H.
  apply (f_equal (fun o => match o with
                           | Some c => (value c <? 0)%float
                           | None => false
                           end)) in H.
  vm_compute in H. discriminate H.
Qed.

(** C2, as amended.  The "abs_delta" counter is the distance between the
    last contender scalar and the reference value when that distance is
    strictly greater than 0.0001, and exactly 0 in every other case; in
    particular it is 0 whenever the distance is strictly less than 0.0001. *)
Theorem abs_delta_is_distance_above_tolerance
    (world : Type) (scalar_at : scalar_type) (dimensions_ak : nat)
    (function_kind : function_kind_t)
    (metric baseline : metric_at world scalar_at) (m : machine world) :
  let c_baseline := reference_value world scalar_at dimensions_ak baseline m in
  let c := last_contender_value world scalar_at dimensions_ak metric baseline m in
  let distance := PrimFloat.abs (c - c_baseline) in
  let rep := reported world scalar_at dimensions_ak function_kind metric baseline m in
  rep !! "abs_delta" =
    Some {| value := if (0.0001 <? distance)%float then distance else 0%float;
            cflags := kDefaults |} /\
  ((distance <? 0.0001)%float = true ->
   rep !! "abs_delta" = Some {| value := 0%float; cflags := kDefaults |}).
Proof.
  intros c_baseline c distance rep. subst rep.
  rewrite reported_abs_delta. fold c_baseline. fold c. unfold accuracy_delta. fold distance.
  split; [reflexivity|].
  intros Hlt. now rewrite (ltb_asym _ _ Hlt).
Qed.

Lemma abs_delta_is_distance_above_tolerance_witness :
  reported unit simsimd_f64_t 2 distance_k
    (const_kernel float (1.00001, 0)%float) (const_kernel float (1, 0)%float)
    (start tt 1 (const_rand 5)) !! "abs_delta"
  = Some {| value := 0%float; cflags := kDefaults |}.
Proof.
  apply (abs_delta_is_distance_above_tolerance unit simsimd_f64_t 2 distance_k
           (const_kernel float (1.00001, 0)%float) (const_kernel float (1, 0)%float)
           (start tt 1 (const_rand 5))).
  vm_compute. reflexivity.
Defined.

(** C2, as stated, fails: when the contender writes NaN the distance to the
    reference is NaN, which is not strictly less than 0.0001, and yet the
    counter is 0 and not that distance. *)
Lemma abs_delta_nan_contender :
  let m := start tt 1 (const_rand 5) in
  let metric := const_kernel float (nan, 0)%float in
  let baseline := const_kernel float (1, 0)%float in
  let c := last_contender_value unit simsimd_f64_t 2 metric baseline m in
  let c_baseline := reference_value unit simsimd_f64_t 2 baseline m in
  (PrimFloat.abs (c - c_baseline) <? 0.0001)%float = false /\
  absolute_delta_as_specified c c_baseline = nan /\
  reported unit simsimd_f64_t 2 distance_k metric baseline m !! "abs_delta"
    = Some {| value := 0%float; cflags := kDefaults |} /\
  reported unit simsimd_f64_t 2 distance_k metric baseline m !! "abs_delta"
    <> Some {| value := absolute_delta_as_specified c c_baseline; cflags := kDefaults |}.
Proof.
  intros m metric baseline c c_baseline.
  split; [vm_compute; reflexivity|]. split; [vm_compute; reflexivity|].
  split; [vm_compute; reflexivity|].
  intros H.
  apply (f_equal (fun o => match o with
                           | Some c => PrimFloat.is_nan (value c)
                           | None => false
                           end)) in H.
  vm_compute in H. discriminate H.
Qed.

(** C10.  Both scalars of the accuracy comparison are sums of the two
    64-bit output slots narrowed to a 32-bit float: "abs_delta" and
    "relative_error" are computed from the narrowed sums.  The narrowing
    shows: for outputs 1.0002 and 1 the counter is the distance of the
    narrowed values, not the distance of the outputs. *)
Theorem accuracy_compares_narrowed_sums
    (world : Type) (scalar_at : scalar_type) (dimensions_ak : nat)
    (function_kind : function_kind_t)
    (metric baseline : metric_at world scalar_at) (m : machine world) :
  let base := fst (baseline_output world scalar_at dimensions_ak baseline m) in
  let outs := fst (contender_outputs world scalar_at dimensions_ak metric baseline m) in
  let c_baseline := f32_of_f64 (fst base + snd base)%float in
  let c := default 0%float (last (map (fun r => f32_of_f64 (fst r + snd r)%float) outs)) in
  let rep := reported world scalar_at dimensions_ak function_kind metric baseline m in
  (rep !! "abs_delta" = Some {| value := accuracy_delta c c_baseline; cflags := kDefaults |} /\
   rep !! "relative_error" =
     Some {| value := accuracy_error (accuracy_delta c c_baseline) c_baseline;
             cflags := kDefaults |}) /\
  (reported unit simsimd_f64_t 2 distance_k
     (const_kernel float (1.0002, 0)%float) (const_kernel float (1, 0)%float)
     (start tt 1 (const_rand 5)) !! "abs_delta"
   = Some {| value := accuracy_delta (f32_of_f64 (1.0002 + 0)) (f32_of_f64 (1 + 0));
             cflags := kDefaults |} /\
   accuracy_delta (f32_of_f64 (1.0002 + 0)) (f32_of_f64 (1 + 0)) = 0.00020003318786621094%float /\
   accuracy_delta (1.0002 + 0) (1 + 0) = 0.00019999999999997797%float).
Proof.
  intros base outs c_baseline c rep. split.
  - subst rep. rewrite reported_abs_delta, reported_relative_error. split; reflexivity.
  - repeat split; vm_compute; reflexivity.
Qed.

(** ** Properties of the catalog *)

(** C6.  A call of [register_] leaves through its [return] statement having
    registered exactly one case: the pair of 1536 elements, a minimum time
    of 10 seconds, as many threads as the hardware runs concurrently, and
    the name followed by the dimension suffix.  The statements after the
    [return], which would register the byte-count sizing, do not run. *)
Theorem register_adds_one_case
    (hardware_concurrency : Z) (scalar_at : scalar_type) (function_kind : function_kind_t)
    (name distance_func baseline_func : string) (s : process) :
  let body := register_ hardware_concurrency scalar_at function_kind name
                distance_func baseline_func in
  let s' := snd (call body s) in
  fst (body s) = Returned tt /\
  registry s' =
    registry s ++
    [{| case_name := name +:+ "_" +:+ to_string 1536 +:+ "d";
        case_fn := {| fn_scalar := scalar_at; fn_dimensions := 1536;
                      fn_kind := function_kind; fn_metric := distance_func;
                      fn_baseline := baseline_func |};
        case_min_time := 10;
        case_threads := hardware_concurrency |}] /\
  length (registry s') = S (length (registry s)) /\
  stdout s' = stdout s /\
  engine_log s' = engine_log s.
Proof.
  intros body s'. subst s' body. unfold call. rewrite register_body. cbn [fst snd].
  unfold with_cases, registered_case. cbn [registry stdout engine_log].
  split; [reflexivity|]. split; [reflexivity|].
  split; [|split; reflexivity].
  rewrite length_app. cbn. lia.
Qed.

(** C8.  [main] returns 1 when the engine reports unrecognized arguments,
    and then nothing was registered and nothing was run; otherwise it
    returns 0 after the engine has run all the registered cases and has
    been shut down. *)
Theorem main_exit_code
    (hardware_concurrency : Z)
    (SIMSIMD_TARGET_NEON SIMSIMD_TARGET_SVE SIMSIMD_TARGET_HASWELL
     SIMSIMD_TARGET_SKYLAKE SIMSIMD_TARGET_ICE SIMSIMD_TARGET_SAPPHIRE
     SIMSIMD_NATIVE_F16 : bool)
    (Initialize : list string -> list string)
    (ReportUnrecognizedArguments : list string -> bool)
    (argv : list string) (s : process) :
  let r := call (main hardware_concurrency SIMSIMD_TARGET_NEON SIMSIMD_TARGET_SVE
                   SIMSIMD_TARGET_HASWELL SIMSIMD_TARGET_SKYLAKE SIMSIMD_TARGET_ICE
                   SIMSIMD_TARGET_SAPPHIRE SIMSIMD_NATIVE_F16
                   Initialize ReportUnrecognizedArguments argv) s in
  let code := fst r in
  let s' := snd r in
  if ReportUnrecognizedArguments (Initialize argv)
  then code = 1 /\
       registry s' = registry s /\
       engine_log s' = engine_log s ++ [Initialized argv]
  else code = 0 /\
       (exists cases, registry s' = registry s ++ cases) /\
       engine_log s' =
         engine_log s ++ [Initialized argv; RanSpecifiedBenchmarks (registry s'); ShutDown].
Proof.
  intros r code s'. subst code s' r.
  pose proof (main_run hardware_concurrency SIMSIMD_TARGET_NEON SIMSIMD_TARGET_SVE
                SIMSIMD_TARGET_HASWELL SIMSIMD_TARGET_SKYLAKE SIMSIMD_TARGET_ICE
                SIMSIMD_TARGET_SAPPHIRE SIMSIMD_NATIVE_F16
                Initialize ReportUnrecognizedArguments argv s) as H.
  unfold main_post in H. unfold call.
  destruct (ReportUnrecognizedArguments (Initialize argv)).
  - rewrite H. cbn. repeat split.
  - destruct H as [cases ->]. cbn. split; [reflexivity|]. split; [eauto|].
    rewrite <- app_assoc. reflexivity.
Qed.

(** ** Properties of [randomize] *)

(** C4, as amended.  For a floating-point scalar type [randomize] draws each
    element as [double(rand()) / double(RAND_MAX)], a value of the closed
    interval from 0 to 1 that is exactly 1 for a draw of [RAND_MAX]; it adds
    the square of the [double] to the running sum of its vector and stores
    the draw cast to the scalar type; after filling, each stored element,
    already cast, is divided by the square root of the sum of squares of
    its own vector and the quotient is cast to the scalar type again. *)
Theorem randomize_stores_casts_then_rescales
    (scalar_at : scalar_type) (dimensions_ak : nat)
    (of_double : float -> carrier scalar_at) (to_double : carrier scalar_at -> float)
    (Hsort : sort scalar_at = floating_scalar of_double to_double)
    (g : rand_state) :
  let p := fst (vectors_pair_gt.randomize scalar_at dimensions_ak
                  (vectors_pair_gt.init scalar_at dimensions_ak) g) in
  let da := a_draws g dimensions_ak in
  let db := b_draws g dimensions_ak in
  (vectors_pair_gt.a _ p =
     map (fun d => of_double (to_double (of_double d) / PrimFloat.sqrt (sum_squares da))%float) da /\
   vectors_pair_gt.b _ p =
     map (fun d => of_double (to_double (of_double d) / PrimFloat.sqrt (sum_squares db))%float) db) /\
  (forall i : nat, (i < dimensions_ak)%nat ->
     da !! i = Some (f64_of_Z (nth_draw g (2 * i)) / f64_of_Z RAND_MAX)%float /\
     db !! i = Some (f64_of_Z (nth_draw g (2 * i + 1)) / f64_of_Z RAND_MAX)%float) /\
  (forall r : Z, 0 <= r <= RAND_MAX ->
     (0 <=? f64_of_Z r / f64_of_Z RAND_MAX)%float = true /\
     (f64_of_Z r / f64_of_Z RAND_MAX <=? 1)%float = true) /\
  (f64_of_Z RAND_MAX / f64_of_Z RAND_MAX = 1)%float.
Proof.
  intros p da db. subst p.
  rewrite (randomize_floating scalar_at dimensions_ak of_double to_double Hsort g).
  cbn [fst vectors_pair_gt.a vectors_pair_gt.b]. split; [split; reflexivity|]. split.
  - intros i Hi. subst da db. unfold a_draws, b_draws.
    rewrite !list_lookup_fmap, !lookup_seq_lt by assumption. split; reflexivity.
  - split; [exact unit_draw_range | vm_compute; reflexivity].
Qed.

Lemma randomize_stores_casts_then_rescales_witness :
  let g := list_rand sample_draws in
  vectors_pair_gt.a _ (fst (vectors_pair_gt.randomize simsimd_f32_t 4
                              (vectors_pair_gt.init simsimd_f32_t 4) g)) =
    map (fun d => f32_of_f64 (f32_of_f64 d / PrimFloat.sqrt (sum_squares (a_draws g 4)))%float)
        (a_draws g 4) /\
  a_draws g 4 !! 2%nat = Some (f64_of_Z 1957747793 / f64_of_Z RAND_MAX)%float /\
  (f64_of_Z 1957747793 / f64_of_Z RAND_MAX <=? 1)%float = true.
Proof.
  intros g.
  destruct (randomize_stores_casts_then_rescales simsimd_f32_t 4 f32_of_f64 (fun x => x)
              eq_refl g) as ([Ha _] & Hdraw & Hrange & _).
  split; [exact Ha|]. split.
  - apply (Hdraw 2%nat). lia.
  - apply (Hrange 1957747793). unfold RAND_MAX. lia.
Defined.

(** C4, as stated, fails twice.  A draw of [RAND_MAX] gives 1, outside the
    half-open interval; and the values are cast before they are normalized
    as well as after, so that the 32-bit vector differs from the cast of the
    normalized draws. *)
Lemma randomize_draw_of_one_and_early_cast :
  let g := list_rand sample_draws in
  (unit_draw RAND_MAX = 1%float /\ (unit_draw RAND_MAX <? 1)%float = false) /\
  vectors_pair_gt.a _ (fst (vectors_pair_gt.randomize simsimd_f32_t 4
                              (vectors_pair_gt.init simsimd_f32_t 4) g))
    <> normalized_as_specified f32_of_f64 (a_draws g 4).
Proof.
  intros g. split; [split; vm_compute; reflexivity|].
  intros H.
  apply (f_equal (fun v : list float =>
                    match v !! 2%nat with
                    | Some x => (x =? 0.60606557130813599)%float
                    | None => false
                    end)) in H.
  vm_compute in H. discriminate H.
Qed.


(** The rest of the normalization is as the comment says, for the
    floating-point types only: for an integral scalar type [randomize]
    stores the casts of the draws and rescales nothing; for a floating-point
    scalar type it divides every stored element by the square root of the
    sum of squares of the draws of its vector. *)
Theorem randomize_rescales_floating_only
    (scalar_at : scalar_type) (dimensions_ak : nat) (g : rand_state) :
  let p := fst (vectors_pair_gt.randomize scalar_at dimensions_ak
                  (vectors_pair_gt.init scalar_at dimensions_ak) g) in
  match sort scalar_at with
  | integral_scalar of_int =>
      vectors_pair_gt.a _ p = map (fun i => of_int (nth_draw g (2 * i))) (seq 0 dimensions_ak) /\
      vectors_pair_gt.b _ p = map (fun i => of_int (nth_draw g (2 * i + 1))) (seq 0 dimensions_ak)
  | floating_scalar of_double to_double =>
      vectors_pair_gt.a _ p =
        map (fun x => of_double (to_double x / PrimFloat.sqrt (sum_squares (a_draws g dimensions_ak)))%float)
            (map of_double (a_draws g dimensions_ak)) /\
      vectors_pair_gt.b _ p =
        map (fun x => of_double (to_double x / PrimFloat.sqrt (sum_squares (b_draws g dimensions_ak)))%float)
            (map of_double (b_draws g dimensions_ak))
  end.
Proof.
  intros p. subst p.
  destruct (sort scalar_at) as [of_int | of_double to_double] eqn:Hsort.
  - rewrite (randomize_integral scalar_at dimensions_ak of_int Hsort g).
    split; reflexivity.
  - rewrite (randomize_floating scalar_at dimensions_ak of_double to_double Hsort g).
    cbn [fst vectors_pair_gt.a vectors_pair_gt.b]. rewrite !map_map. split; reflexivity.
Qed.

(** The same at four elements of the 32-bit type; and a 16-bit vector of
    small draws that are not 0: the first cast rounds them to 0, and the
    vector is 0. *)
Lemma randomize_zero_draws_lose_the_norm :
  let p := fst (vectors_pair_gt.randomize simsimd_f32_t 4
                  (vectors_pair_gt.init simsimd_f32_t 4) (const_rand 0)) in
  let p16 := fst (vectors_pair_gt.randomize simsimd_f16_t 4
                    (vectors_pair_gt.init simsimd_f16_t 4)
                    (list_rand [1; 2; 3; 4; 5; 6; 7; 8])) in
  (vectors_pair_gt.a _ p = [nan; nan; nan; nan] /\
   vectors_pair_gt.b _ p = [nan; nan; nan; nan] /\
   l2_norm (vectors_pair_gt.a _ p) = nan /\
   unit_norm_as_specified (vectors_pair_gt.a _ p) = false /\
   unit_norm_as_specified (vectors_pair_gt.b _ p) = false) /\
  (vectors_pair_gt.a _ p16 = [0; 0; 0; 0]%float /\
   unit_norm_as_specified (vectors_pair_gt.a _ p16) = false).
Proof. intros p p16. repeat split; vm_compute; reflexivity. Qed.

(** ** Sample runs *)

(** On the sample draws the three floating-point types come out with a norm
    within the tolerance. *)
Example randomize_sample_norms :
  let run (T : scalar_type) :=
    fst (vectors_pair_gt.randomize T 4 (vectors_pair_gt.init T 4) (list_rand sample_draws)) in
  unit_norm_as_specified (vectors_pair_gt.a simsimd_f16_t (run simsimd_f16_t)) = true /\
  unit_norm_as_specified (vectors_pair_gt.a simsimd_f32_t (run simsimd_f32_t)) = true /\
  unit_norm_as_specified (vectors_pair_gt.a simsimd_f64_t (run simsimd_f64_t)) = true.
Proof. repeat split; vm_compute; reflexivity. Qed.

(** The integral types keep the raw casts. *)
Example randomize_i8_sample :
  fst (vectors_pair_gt.randomize simsimd_i8_t 2 (vectors_pair_gt.init simsimd_i8_t 2)
         (list_rand sample_draws))
  = vectors_pair_gt.Build_t simsimd_i8_t [103; 105] [-58; 115].
Proof. vm_compute. reflexivity. Qed.

(** The same kernel on both sides: no delta, no error, one pair. *)
Example measure_same_kernel :
  let rep := reported unit simsimd_f32_t 4 distance_k dot_kernel dot_kernel
               (start tt 1 (list_rand sample_draws)) in
  rep !! "abs_delta" = Some {| value := 0; cflags := kDefaults |} /\
  rep !! "relative_error" = Some {| value := 0; cflags := kDefaults |} /\
  rep !! "pairs" = Some {| value := 1; cflags := kIsRate |} /\
  rep !! "bytes" = Some {| value := 32; cflags := kIsRate |}.
Proof. repeat split; vm_compute; reflexivity. Qed.

(** A contender that writes 0 against a dot product that is not 0: the
    relative error is 1. *)
Example measure_broken_contender :
  reported unit simsimd_f32_t 4 distance_k (const_kernel float (0, 0)%float) dot_kernel
    (start tt 1 (list_rand sample_draws)) !! "relative_error"
  = Some {| value := 1; cflags := kDefaults |}.
Proof. vm_compute. reflexivity. Qed.

(** A kernel with hidden state: the scalar of the last iteration is kept. *)
Example measure_keeps_last_scalar :
  let m' := snd (call (measure Z simsimd_f64_t 2 distance_k
                         (counting_kernel float) (counting_kernel float))
                   (start 0 3 (const_rand 5))) in
  kworld m' = 4 /\
  counters (state m') !! "abs_delta" = Some {| value := 3; cflags := kDefaults |}.
Proof. split; vm_compute; reflexivity. Qed.

(** [main] with and without unrecognized arguments. *)
Example main_rejects_arguments :
  fst (call (main 8 false false true false false false true
               (fun argv => argv) (fun argv => bool_decide (1 < length argv)%nat)
               ["bench"; "--frobnicate"]) fresh_process) = 1.
Proof. reflexivity. Qed.

Example main_runs_serial_cases :
  let r := call (main 8 false false false false false false false
                   (fun argv => argv) (fun argv => bool_decide (1 < length argv)%nat)
                   ["bench"]) fresh_process in
  fst r = 0 /\ length (registry (snd r)) = 19%nat /\
  (case_name <$> registry (snd r)) !! 0%nat = Some "serial_f16_dot_1536d".
Proof. repeat split; vm_compute; reflexivity. Qed.

(** * Further properties *)

(** ** More on the input generator *)

Section GeneratorFacts.
Variable scalar_at : scalar_type.
Variable dimensions_ak : nat.

Abbreviation pair_t := (vectors_pair_gt.t scalar_at).
Abbreviation sized := (sized scalar_at dimensions_ak).

(** [randomize] in closed form, on any pair that has its cells. *)
Lemma randomize_integral_any (of_int : Z -> carrier scalar_at)
    (Hsort : sort scalar_at = integral_scalar of_int) (p : pair_t) (g : rand_state) :
  sized p ->
  vectors_pair_gt.randomize scalar_at dimensions_ak p g =
  ({| vectors_pair_gt.a := map (fun j => of_int (nth_draw g (2 * j))) (seq 0 dimensions_ak);
      vectors_pair_gt.b := map (fun j => of_int (nth_draw g (2 * j + 1))) (seq 0 dimensions_ak) |},
   drawn g (2 * dimensions_ak)).
Proof.
  intros Hp. unfold vectors_pair_gt.randomize. rewrite Hsort.
  destruct (fill_integral scalar_at dimensions_ak of_int Hsort p g Hp) as (Hr & Ha & Hb).
  rewrite Hr. f_equal.
  destruct (vectors_pair_gt.fs_pair _ _) as [xa xb]. cbn in Ha, Hb. now subst.
Qed.

Lemma randomize_floating_any (of_double : float -> carrier scalar_at)
    (to_double : carrier scalar_at -> float)
    (Hsort : sort scalar_at = floating_scalar of_double to_double)
    (p : pair_t) (g : rand_state) :
  sized p ->
  vectors_pair_gt.randomize scalar_at dimensions_ak p g =
  ({| vectors_pair_gt.a :=
        map (fun d => of_double
               (to_double (of_double d) / PrimFloat.sqrt (sum_squares (a_draws g dimensions_ak)))%float)
            (a_draws g dimensions_ak);
      vectors_pair_gt.b :=
        map (fun d => of_double
               (to_double (of_double d) / PrimFloat.sqrt (sum_squares (b_draws g dimensions_ak)))%float)
            (b_draws g dimensions_ak) |},
   drawn g (2 * dimensions_ak)).
Proof.
  intros Hp. unfold vectors_pair_gt.randomize. rewrite Hsort.
  destruct (fill_floating scalar_at dimensions_ak of_double to_double Hsort p g Hp)
    as (Hr & Hsa & Hsb & Hs & Ha & Hb).
  rewrite Hr, Hsa, Hsb. f_equal.
  destruct (normalize_floating scalar_at dimensions_ak of_double to_double Hsort _
              (PrimFloat.sqrt (sum_squares (a_draws g dimensions_ak)))
              (PrimFloat.sqrt (sum_squares (b_draws g dimensions_ak))) _ _ Hs Ha Hb)
    as [Hna Hnb].
  destruct (for_loop dimensions_ak (vectors_pair_gt.normalize_step _ _ _) _) as [xa xb].
  cbn in Hna, Hnb. rewrite Hna, Hnb.
  unfold a_draws, b_draws. rewrite !map_map. reflexivity.
Qed.

(** The pair [set] leaves behind. *)
Lemma set_run (v : carrier scalar_at) (p : pair_t) :
  sized p ->
  vectors_pair_gt.set scalar_at dimensions_ak v p =
  {| vectors_pair_gt.a := replicate dimensions_ak v;
     vectors_pair_gt.b := replicate dimensions_ak v |}.
Proof.
  intros Hp. unfold vectors_pair_gt.set.
  pose (Inv := fun (k : nat) (q : pair_t) =>
    sized q /\
    (forall j, (j < k)%nat -> vectors_pair_gt.a _ q !! j = Some v) /\
    (forall j, (j < k)%nat -> vectors_pair_gt.b _ q !! j = Some v)).
  assert (H : Inv dimensions_ak
                (for_loop dimensions_ak
                   (fun i q => vectors_pair_gt.set_a scalar_at i v
                                 (vectors_pair_gt.set_b scalar_at i v q)) p)).
  { apply for_loop_invariant.
    - intros k q Hk (Hs & Ha & Hb).
      change (vectors_pair_gt.set_a scalar_at k v (vectors_pair_gt.set_b scalar_at k v q))
        with (vectors_pair_gt.set_b scalar_at k v (vectors_pair_gt.set_a scalar_at k v q)).
      apply (set_cells scalar_at dimensions_ak q k v v (fun _ => v) (fun _ => v)); auto.
    - repeat split; try apply Hp; intros; lia. }
  destruct H as ([Hla Hlb] & Ha & Hb).
  destruct (for_loop _ _ _) as [xa xb]. cbn in *.
  rewrite (list_of_lookups xa dimensions_ak (fun _ => v) Hla Ha).
  rewrite (list_of_lookups xb dimensions_ak (fun _ => v) Hlb Hb).
  now rewrite !map_const_seq.
Qed.
End GeneratorFacts.

(** X1.  [set] writes its value into every cell of both vectors, whatever
    they held: on a pair with its [dimensions_ak] cells the result is the
    constant pair, so that a second [set] replaces the first. *)
Theorem set_fills_both_vectors
    (scalar_at : scalar_type) (dimensions_ak : nat) (v w : carrier scalar_at)
    (p : vectors_pair_gt.t scalar_at) (Hp : sized scalar_at dimensions_ak p) :
  let q := vectors_pair_gt.set scalar_at dimensions_ak v p in
  vectors_pair_gt.a _ q = replicate dimensions_ak v /\
  vectors_pair_gt.b _ q = replicate dimensions_ak v /\
  sized scalar_at dimensions_ak q /\
  vectors_pair_gt.set scalar_at dimensions_ak v
    (vectors_pair_gt.set scalar_at dimensions_ak w p) = q.
Proof.
  intros q. subst q. rewrite (set_run scalar_at dimensions_ak v p Hp).
  assert (Hc : forall x : carrier scalar_at,
            sized scalar_at dimensions_ak
              {| vectors_pair_gt.a := replicate dimensions_ak x;
                 vectors_pair_gt.b := replicate dimensions_ak x |})
    by (intros x; split; apply length_replicate).
  repeat split; try apply length_replicate.
  rewrite (set_run scalar_at dimensions_ak w p Hp).
  apply set_run, Hc.
Qed.

Lemma set_fills_both_vectors_witness :
  vectors_pair_gt.a _ (vectors_pair_gt.set simsimd_f32_t 3 1%float
                         (vectors_pair_gt.init simsimd_f32_t 3)) = [1; 1; 1]%float.
Proof.
  apply (set_fills_both_vectors simsimd_f32_t 3 1%float 1%float
           (vectors_pair_gt.init simsimd_f32_t 3)).
  apply init_sized.
Defined.

(** X2.  [randomize] overwrites every cell: its result does not depend on
    what the pair held before, so a [set] before it is lost. *)
Theorem randomize_forgets_previous_contents
    (scalar_at : scalar_type) (dimensions_ak : nat)
    (p : vectors_pair_gt.t scalar_at) (g : rand_state)
    (Hp : sized scalar_at dimensions_ak p) :
  vectors_pair_gt.randomize scalar_at dimensions_ak p g =
  vectors_pair_gt.randomize scalar_at dimensions_ak
    (vectors_pair_gt.init scalar_at dimensions_ak) g /\
  forall v : carrier scalar_at,
    vectors_pair_gt.randomize scalar_at dimensions_ak
      (vectors_pair_gt.set scalar_at dimensions_ak v p) g =
    vectors_pair_gt.randomize scalar_at dimensions_ak p g.
Proof.
  assert (Hany : forall q, sized scalar_at dimensions_ak q ->
            vectors_pair_gt.randomize scalar_at dimensions_ak q g =
            vectors_pair_gt.randomize scalar_at dimensions_ak
              (vectors_pair_gt.init scalar_at dimensions_ak) g).
  { intros q Hq. destruct (sort scalar_at) as [of_int | of_double to_double] eqn:Hsort.
    - rewrite !(randomize_integral_any scalar_at dimensions_ak of_int Hsort)
        by (assumption || apply init_sized). reflexivity.
    - rewrite !(randomize_floating_any scalar_at dimensions_ak of_double to_double Hsort)
        by (assumption || apply init_sized). reflexivity. }
  split; [apply Hany, Hp|].
  intros v. rewrite (Hany p Hp). apply Hany.
  rewrite (set_run scalar_at dimensions_ak v p Hp). split; apply length_replicate.
Qed.

Lemma randomize_forgets_previous_contents_witness :
  vectors_pair_gt.randomize simsimd_i8_t 2
    (vectors_pair_gt.set simsimd_i8_t 2 7 (vectors_pair_gt.init simsimd_i8_t 2))
    (list_rand sample_draws) =
  vectors_pair_gt.randomize simsimd_i8_t 2 (vectors_pair_gt.init simsimd_i8_t 2)
    (list_rand sample_draws).
Proof.
  destruct (randomize_forgets_previous_contents simsimd_i8_t 2
              (vectors_pair_gt.init simsimd_i8_t 2) (list_rand sample_draws)
              (init_sized simsimd_i8_t 2)) as [_ H].
  apply H.
Defined.

(** X3.  For every scalar type [randomize] keeps the dimension of both
    vectors and calls the random source exactly twice per element: the
    generator is left [2 * dimensions_ak] draws further. *)
Theorem randomize_keeps_dimension_and_draws_twice_per_cell
    (scalar_at : scalar_type) (dimensions_ak : nat)
    (p : vectors_pair_gt.t scalar_at) (g : rand_state)
    (Hp : sized scalar_at dimensions_ak p) :
  let r := vectors_pair_gt.randomize scalar_at dimensions_ak p g in
  length (vectors_pair_gt.a _ (fst r)) = dimensions_ak /\
  length (vectors_pair_gt.b _ (fst r)) = dimensions_ak /\
  draws (snd r) = draws g /\
  cursor (snd r) = (cursor g + 2 * dimensions_ak)%nat.
Proof.
  intros r. subst r.
  destruct (sort scalar_at) as [of_int | of_double to_double] eqn:Hsort.
  - rewrite (randomize_integral_any scalar_at dimensions_ak of_int Hsort p g Hp).
    cbn. rewrite !length_map, !length_seq. repeat split.
  - rewrite (randomize_floating_any scalar_at dimensions_ak of_double to_double Hsort p g Hp).
    cbn. unfold a_draws, b_draws. rewrite !length_map, !length_seq. repeat split.
Qed.

Lemma randomize_keeps_dimension_and_draws_twice_per_cell_witness :
  cursor (snd (vectors_pair_gt.randomize simsimd_f16_t 1536
                 (vectors_pair_gt.init simsimd_f16_t 1536) (const_rand 1)))
  = (0 + 2 * 1536)%nat.
Proof.
  apply (randomize_keeps_dimension_and_draws_twice_per_cell simsimd_f16_t 1536
           (vectors_pair_gt.init simsimd_f16_t 1536) (const_rand 1)).
  apply init_sized.
Defined.

(** X4.  The two vectors are drawn independently of each other: the first
    depends only on the draws of even rank and the second only on the draws
    of odd rank. *)
Theorem randomize_vectors_use_alternate_draws
    (scalar_at : scalar_type) (dimensions_ak : nat) (g g' : rand_state) :
  let run h := fst (vectors_pair_gt.randomize scalar_at dimensions_ak
                      (vectors_pair_gt.init scalar_at dimensions_ak) h) in
  ((forall i, (i < dimensions_ak)%nat -> nth_draw g (2 * i) = nth_draw g' (2 * i)) ->
   vectors_pair_gt.a _ (run g) = vectors_pair_gt.a _ (run g')) /\
  ((forall i, (i < dimensions_ak)%nat -> nth_draw g (2 * i + 1) = nth_draw g' (2 * i + 1)) ->
   vectors_pair_gt.b _ (run g) = vectors_pair_gt.b _ (run g')).
Proof.
  intros run. subst run. cbv beta.
  assert (Hext : forall (A : Type) (f f' : nat -> A),
            (forall i, (i < dimensions_ak)%nat -> f i = f' i) ->
            map f (seq 0 dimensions_ak) = map f' (seq 0 dimensions_ak)).
  { intros A f f' Hf. apply map_ext_in. intros i Hi. apply Hf.
    apply in_seq in Hi. lia. }
  destruct (sort scalar_at) as [of_int | of_double to_double] eqn:Hsort.
  - rewrite !(randomize_integral scalar_at dimensions_ak of_int Hsort). cbn [fst vectors_pair_gt.a vectors_pair_gt.b].
    split; intros H; apply Hext; intros i Hi; now rewrite H.
  - rewrite !(randomize_floating scalar_at dimensions_ak of_double to_double Hsort). cbn [fst vectors_pair_gt.a vectors_pair_gt.b].
    split; intros H.
    + assert (E : a_draws g dimensions_ak = a_draws g' dimensions_ak)
        by (apply Hext; intros i Hi; now rewrite H).
      now rewrite E.
    + assert (E : b_draws g dimensions_ak = b_draws g' dimensions_ak)
        by (apply Hext; intros i Hi; now rewrite H).
      now rewrite E.
Qed.

Lemma randomize_vectors_use_alternate_draws_witness :
  vectors_pair_gt.a _ (fst (vectors_pair_gt.randomize simsimd_f64_t 2
                              (vectors_pair_gt.init simsimd_f64_t 2) (list_rand [3; 9; 4; 9]))) =
  vectors_pair_gt.a _ (fst (vectors_pair_gt.randomize simsimd_f64_t 2
                              (vectors_pair_gt.init simsimd_f64_t 2) (list_rand [3; 1; 4; 1]))).
Proof.
  apply (randomize_vectors_use_alternate_draws simsimd_f64_t 2
           (list_rand [3; 9; 4; 9]) (list_rand [3; 1; 4; 1])).
  intros i Hi. destruct i as [|[|i]]; [reflexivity | reflexivity | lia].
Defined.

(** X5.  The division by the norm is not guarded: when every draw that
    goes to a vector is 0, its sum of squares is 0 and each of its cells
    is the cast of 0/0, which is NaN. *)
Theorem randomize_zero_norm_gives_nan
    (scalar_at : scalar_type) (dimensions_ak : nat)
    (of_double : float -> carrier scalar_at) (to_double : carrier scalar_at -> float)
    (g : rand_state)
    (Hsort : sort scalar_at = floating_scalar of_double to_double)
    (Hzero : to_double (of_double 0%float) = 0%float)
    (Hdraws : forall i, (i < dimensions_ak)%nat -> nth_draw g (2 * i) = 0) :
  vectors_pair_gt.a _ (fst (vectors_pair_gt.randomize scalar_at dimensions_ak
                              (vectors_pair_gt.init scalar_at dimensions_ak) g))
  = replicate dimensions_ak (of_double nan).
Proof.
  rewrite (randomize_floating scalar_at dimensions_ak of_double to_double Hsort).
  cbn [fst vectors_pair_gt.a].
  assert (E : a_draws g dimensions_ak = replicate dimensions_ak 0%float).
  { unfold a_draws. rewrite <- (map_const_seq 0%float dimensions_ak 0).
    apply map_ext_in. intros i Hi. apply in_seq in Hi.
    rewrite Hdraws by lia. reflexivity. }
  rewrite E, sum_squares_zeros.
  rewrite <- (map_const_seq 0%float dimensions_ak 0), map_map.
  rewrite <- (map_const_seq (of_double nan) dimensions_ak 0).
  apply map_ext. intros _. rewrite Hzero. reflexivity.
Qed.

Lemma randomize_zero_norm_gives_nan_witness :
  vectors_pair_gt.a _ (fst (vectors_pair_gt.randomize simsimd_f16_t 3
                              (vectors_pair_gt.init simsimd_f16_t 3)
                              (list_rand [0; 5; 0; 6; 0; 7])))
  = replicate 3 (f16_of_f64 nan).
Proof.
  apply (randomize_zero_norm_gives_nan simsimd_f16_t 3 f16_of_f64 (fun x => x)
           (list_rand [0; 5; 0; 6; 0; 7])).
  - reflexivity.
  - vm_compute. reflexivity.
  - intros i Hi. destruct i as [|[|[|i]]]; [reflexivity | reflexivity | reflexivity | lia].
Defined.

(** ** More on the accuracy comparison *)

Lemma SFcompare_refl (x : spec_float) :
  x <> S754_nan -> SFcompare x x = Some Eq.
Proof.
  destruct x as [s | s | | s m e]; simpl; intros H; try reflexivity.
  - now destruct s.
  - congruence.
  - rewrite Z.compare_refl.
    change (PosDef.Pos.compare_cont Eq m m) with (Pos.compare m m).
    rewrite Pos.compare_refl. now destruct s.
Qed.

Lemma is_nan_Prim2SF (x : float) : PrimFloat.is_nan x = true <-> Prim2SF x = S754_nan.
Proof.
  unfold PrimFloat.is_nan. rewrite FloatAxioms.eqb_spec. unfold SFeqb. split.
  - intros H. destruct (Prim2SF x) as [s | s | | s m e] eqn:E; [| | reflexivity |];
      rewrite SFcompare_refl in H by discriminate; discriminate H.
  - intros ->. reflexivity.
Qed.

(** A difference with a NaN operand is NaN. *)
Lemma sub_nan (x y : float) :
  PrimFloat.is_nan x = true \/ PrimFloat.is_nan y = true ->
  Prim2SF (x - y) = S754_nan.
Proof.
  rewrite !is_nan_Prim2SF, sub_spec. intros [H | H]; rewrite H.
  - reflexivity.
  - now destruct (Prim2SF x) as [s | s | | s m e].
Qed.

(** The difference of a [double] with itself is a zero or NaN. *)
Lemma sub_diag (x : float) :
  (exists s, Prim2SF (x - x) = S754_zero s) \/ Prim2SF (x - x) = S754_nan.
Proof.
  rewrite sub_spec. destruct (Prim2SF x) as [s | s | | s m e].
  - left. destruct s; eexists; reflexivity.
  - right. now destruct s.
  - now right.
  - left. exists false. unfold SF64sub, SFsub.
    rewrite Z.sub_diag. reflexivity.
Qed.

(** No delta survives the tolerance test unless it is above 0.0001. *)
Lemma accuracy_delta_cases (c c_baseline : float) :
  accuracy_delta c c_baseline = 0%float \/
  (0.0001 <? accuracy_delta c c_baseline)%float = true.
Proof.
  unfold accuracy_delta.
  destruct (0.0001 <? PrimFloat.abs (c - c_baseline))%float eqn:E; [right | left]; auto.
Qed.

Lemma above_tolerance (d : float) :
  (0.0001 <? d)%float = true ->
  PrimFloat.is_nan d = false /\ (d <? 0)%float = false /\ (d =? 0)%float = false.
Proof.
  intros H. split; [|split].
  - destruct (PrimFloat.is_nan d) eqn:E; [|reflexivity].
    apply is_nan_Prim2SF in E. rewrite FloatAxioms.ltb_spec, E in H. discriminate H.
  - revert H. rewrite !FloatAxioms.ltb_spec.
    change (Prim2SF 0) with (S754_zero false).
    destruct (Prim2SF d) as [s | s | | s m e]; try (intros H; vm_compute in H; discriminate H).
    + destruct s; [intros H; vm_compute in H; discriminate H | reflexivity].
    + destruct s; [intros H; vm_compute in H; discriminate H | reflexivity].
  - revert H. rewrite FloatAxioms.ltb_spec, FloatAxioms.eqb_spec.
    change (Prim2SF 0) with (S754_zero false).
    destruct (Prim2SF d) as [s | s | | s m e]; try (intros H; vm_compute in H; discriminate H).
    + destruct s; [intros H; vm_compute in H; discriminate H | reflexivity].
    + destruct s; [intros H; vm_compute in H; discriminate H | reflexivity].
Qed.

Lemma accuracy_delta_nan (c c_baseline : float) :
  PrimFloat.is_nan c = true \/ PrimFloat.is_nan c_baseline = true ->
  accuracy_delta c c_baseline = 0%float.
Proof.
  intros H. unfold accuracy_delta.
  rewrite FloatAxioms.ltb_spec, abs_spec, (sub_nan _ _ H). reflexivity.
Qed.

Lemma accuracy_delta_same (c : float) : accuracy_delta c c = 0%float.
Proof.
  unfold accuracy_delta. rewrite FloatAxioms.ltb_spec, abs_spec.
  destruct (sub_diag c) as [[s ->] | ->]; reflexivity.
Qed.

Lemma accuracy_error_no_delta (c_baseline : float) : accuracy_error 0 c_baseline = 0%float.
Proof. reflexivity. Qed.

Section StatelessKernel.
Variable world : Type.
Variable scalar_at : scalar_type.
Variable dimensions_ak : nat.
Variable k : metric_at world scalar_at.
Hypothesis k_keeps_world : forall a b n r w, snd (k a b n r w) = w.

Lemma kernel_runs_stateless (p : vectors_pair_gt.t scalar_at) (w : world) (n : nat) :
  kernel_runs world scalar_at dimensions_ak k p n w =
  (replicate n (fst (kernel_run world scalar_at dimensions_ak k p w)), w).
Proof.
  induction n as [|n IH]; [reflexivity|].
  cbn [kernel_runs replicate].
  pose proof (k_keeps_world (vectors_pair_gt.a _ p) (vectors_pair_gt.b _ p)
                (vectors_pair_gt.dimensions scalar_at dimensions_ak p) (0, 0)%float w) as Hw.
  fold (kernel_run world scalar_at dimensions_ak k p w) in Hw.
  destruct (kernel_run world scalar_at dimensions_ak k p w) as [r w'] eqn:Er.
  cbn [snd] in Hw. subst w'. rewrite IH. reflexivity.
Qed.

Lemma last_contender_stateless (m : machine world) :
  (0 < max_iterations (state m))%nat ->
  last_contender_value world scalar_at dimensions_ak k k m =
  reference_value world scalar_at dimensions_ak k m.
Proof.
  intros Hn. unfold last_contender_value, contender_values, contender_outputs,
    reference_value, baseline_output.
  pose proof (k_keeps_world
                (vectors_pair_gt.a _ (input_pair world scalar_at dimensions_ak m))
                (vectors_pair_gt.b _ (input_pair world scalar_at dimensions_ak m))
                (vectors_pair_gt.dimensions scalar_at dimensions_ak
                   (input_pair world scalar_at dimensions_ak m)) (0, 0)%float (kworld m)) as Hw.
  fold (kernel_run world scalar_at dimensions_ak k
          (input_pair world scalar_at dimensions_ak m) (kworld m)) in Hw.
  rewrite Hw, kernel_runs_stateless. cbn [fst].
  destruct (max_iterations (state m)) as [|n]; [lia|].
  change (map fold_results) with (fmap (M := list) fold_results).
  rewrite fmap_replicate.
  replace (S n) with (n + 1)%nat by lia. rewrite replicate_add. cbn [replicate].
  now rewrite last_snoc.
Qed.
End StatelessKernel.

(** ** More properties of [measure] *)

(** X6.  [measure] assigns its four counters and nothing else in the
    engine's state: any other counter keeps its value (or stays absent),
    the iteration count is not touched, and the counters present afterwards
    are the four and those present before. *)
Theorem measure_writes_only_its_four_counters
    (world : Type) (scalar_at : scalar_type) (dimensions_ak : nat)
    (function_kind : function_kind_t)
    (metric baseline : metric_at world scalar_at) (m : machine world) (k : string)
    (Hk : k ∉ ["bytes"; "pairs"; "abs_delta"; "relative_error"]) :
  let m' := snd (call (measure world scalar_at dimensions_ak function_kind metric baseline) m) in
  counters (state m') !! k = counters (state m) !! k /\
  max_iterations (state m') = max_iterations (state m) /\
  dom (counters (state m')) =
    ({["bytes"; "pairs"; "abs_delta"; "relative_error"]} : gset string)
    ∪ dom (counters (state m)).
Proof.
  intros m'. subst m'. rewrite measure_run. cbn [snd final_machine state counters max_iterations].
  split; [|split; [reflexivity|]].
  - rewrite !lookup_insert_ne; [reflexivity | | | |]; intros E; apply Hk; rewrite <- E; set_solver.
  - rewrite !dom_insert_L. apply set_eq. intros x.
    rewrite !elem_of_union, !elem_of_singleton. tauto.
Qed.

Lemma measure_writes_only_its_four_counters_witness :
  let m := {| state := {| max_iterations := 2;
                          counters := {["items" := {| value := 7; cflags := kIsRate |}]} |};
              rng := const_rand 5; kworld := tt; calls := [] |} in
  counters (state (snd (call (measure unit simsimd_f32_t 4 distance_k dot_kernel dot_kernel) m)))
    !! "items" = Some {| value := 7; cflags := kIsRate |}.
Proof.
  intros m.
  destruct (measure_writes_only_its_four_counters unit simsimd_f32_t 4 distance_k
              dot_kernel dot_kernel m "items") as [H _].
  - intros Hin. repeat (apply elem_of_cons in Hin as [Hin | Hin]; [discriminate Hin|]).
    inversion Hin.
  - rewrite H. reflexivity.
Defined.

(** X7.  [measure] randomizes its pair once and before any kernel runs:
    the baseline call and every iteration of the timed loop are handed the
    pair drawn from the random source as the run found it, with its
    [dimensions_ak] cells; and whatever the kernels and the number of
    iterations, the random source is left exactly two draws per element
    further. *)
Theorem measure_randomizes_once
    (world : Type) (scalar_at : scalar_type) (dimensions_ak : nat)
    (function_kind : function_kind_t)
    (metric baseline : metric_at world scalar_at) (m : machine world) :
  let drawn_pair := vectors_pair_gt.randomize scalar_at dimensions_ak
                      (vectors_pair_gt.init scalar_at dimensions_ak) (rng m) in
  let p := fst drawn_pair in
  let m' := snd (call (measure world scalar_at dimensions_ak function_kind metric baseline) m) in
  let base := kernel_run world scalar_at dimensions_ak baseline p (kworld m) in
  let timed := kernel_runs world scalar_at dimensions_ak metric p
                 (max_iterations (state m)) (snd base) in
  rng m' = snd drawn_pair /\
  rng m' = drawn (rng m) (2 * dimensions_ak) /\
  sized scalar_at dimensions_ak p /\
  kworld m' = snd timed /\
  counters (state m') !! "abs_delta" =
    Some {| value := accuracy_delta (default 0%float (last (map fold_results (fst timed))))
                                    (fold_results (fst base));
            cflags := kDefaults |}.
Proof.
  intros drawn_pair p m' base timed. subst drawn_pair p m' base timed.
  rewrite measure_run. cbn [snd final_machine rng kworld state counters].
  split; [reflexivity|].
  assert (Hrun : snd (vectors_pair_gt.randomize scalar_at dimensions_ak
                        (vectors_pair_gt.init scalar_at dimensions_ak) (rng m))
                 = drawn (rng m) (2 * dimensions_ak) /\
                 sized scalar_at dimensions_ak
                   (fst (vectors_pair_gt.randomize scalar_at dimensions_ak
                           (vectors_pair_gt.init scalar_at dimensions_ak) (rng m)))).
  { destruct (sort scalar_at) as [of_int | of_double to_double] eqn:Hsort.
    - rewrite (randomize_integral scalar_at dimensions_ak of_int Hsort).
      cbn [fst snd]. split; [reflexivity|].
      split; cbn; now rewrite length_map, length_seq.
    - rewrite (randomize_floating scalar_at dimensions_ak of_double to_double Hsort).
      cbn [fst snd]. split; [reflexivity|].
      split; cbn; unfold a_draws, b_draws; now rewrite !length_map, length_seq. }
  destruct Hrun as [Hrng Hsized].
  split; [exact Hrng|]. split; [exact Hsized|]. split; [reflexivity|].
  rewrite lookup_insert_ne by done. apply lookup_insert_eq.
Qed.

(** X8.  A kernel that leaves the world as it found it, measured against
    itself for at least one iteration, is reported with no delta and no
    error, whatever it writes: infinities and NaN included. *)
Theorem measure_kernel_against_itself
    (world : Type) (scalar_at : scalar_type) (dimensions_ak : nat)
    (function_kind : function_kind_t)
    (metric : metric_at world scalar_at) (m : machine world)
    (Hpure : forall a b n r w, snd (metric a b n r w) = w)
    (Hruns : (0 < max_iterations (state m))%nat) :
  let rep := reported world scalar_at dimensions_ak function_kind metric metric m in
  rep !! "abs_delta" = Some {| value := 0; cflags := kDefaults |} /\
  rep !! "relative_error" = Some {| value := 0; cflags := kDefaults |}.
Proof.
  intros rep. subst rep. rewrite reported_abs_delta, reported_relative_error.
  rewrite (last_contender_stateless world scalar_at dimensions_ak metric Hpure m Hruns).
  rewrite accuracy_delta_same. split; reflexivity.
Qed.

Lemma measure_kernel_against_itself_witness :
  reported unit simsimd_f64_t 2 distance_k
    (const_kernel float (infinity, 0)%float) (const_kernel float (infinity, 0)%float)
    (start tt 3 (const_rand 5)) !! "abs_delta"
  = Some {| value := 0; cflags := kDefaults |}.
Proof.
  apply (measure_kernel_against_itself unit simsimd_f64_t 2 distance_k
           (const_kernel float (infinity, 0)%float) (start tt 3 (const_rand 5))).
  - reflexivity.
  - cbn. lia.
Defined.

(** X9.  The "abs_delta" counter is never NaN and never negative, and it is
    never a nonzero value at or below the tolerance: it is 0, or it is above
    0.0001; and whenever it is 0 so is "relative_error". *)
Theorem abs_delta_is_zero_or_above_tolerance
    (world : Type) (scalar_at : scalar_type) (dimensions_ak : nat)
    (function_kind : function_kind_t)
    (metric baseline : metric_at world scalar_at) (m : machine world) :
  let rep := reported world scalar_at dimensions_ak function_kind metric baseline m in
  exists delta error,
    rep !! "abs_delta" = Some {| value := delta; cflags := kDefaults |} /\
    rep !! "relative_error" = Some {| value := error; cflags := kDefaults |} /\
    PrimFloat.is_nan delta = false /\
    (delta <? 0)%float = false /\
    ((delta = 0%float /\ error = 0%float) \/
     ((0.0001 <? delta)%float = true /\ (delta =? 0)%float = false)).
Proof.
  intros rep. subst rep. eexists _, _.
  rewrite reported_abs_delta, reported_relative_error.
  split; [reflexivity|]. split; [reflexivity|].
  destruct (accuracy_delta_cases
              (last_contender_value world scalar_at dimensions_ak metric baseline m)
              (reference_value world scalar_at dimensions_ak baseline m)) as [-> | H].
  - repeat split. left. split; reflexivity.
  - destruct (above_tolerance _ H) as (Hn & Hneg & Hz). repeat split; auto.
Qed.

(** X10.  A NaN on either side of the comparison is reported as perfect
    agreement: if the reference value or the last contender value is NaN,
    both accuracy counters are 0. *)
Theorem nan_is_reported_as_no_error
    (world : Type) (scalar_at : scalar_type) (dimensions_ak : nat)
    (function_kind : function_kind_t)
    (metric baseline : metric_at world scalar_at) (m : machine world)
    (Hnan : PrimFloat.is_nan
              (last_contender_value world scalar_at dimensions_ak metric baseline m) = true \/
            PrimFloat.is_nan (reference_value world scalar_at dimensions_ak baseline m) = true) :
  let rep := reported world scalar_at dimensions_ak function_kind metric baseline m in
  rep !! "abs_delta" = Some {| value := 0; cflags := kDefaults |} /\
  rep !! "relative_error" = Some {| value := 0; cflags := kDefaults |}.
Proof.
  intros rep. subst rep. rewrite reported_abs_delta, reported_relative_error.
  rewrite (accuracy_delta_nan _ _ Hnan). split; reflexivity.
Qed.

Lemma nan_is_reported_as_no_error_witness :
  reported unit simsimd_f64_t 2 distance_k
    (const_kernel float (1, 0)%float) (const_kernel float (nan, 0)%float)
    (start tt 1 (const_rand 5)) !! "relative_error"
  = Some {| value := 0; cflags := kDefaults |}.
Proof.
  apply (nan_is_reported_as_no_error unit simsimd_f64_t 2 distance_k
           (const_kernel float (1, 0)%float) (const_kernel float (nan, 0)%float)
           (start tt 1 (const_rand 5))).
  right. vm_compute. reflexivity.
Defined.

(** X11.  The four counters of a run depend on the machine only through the
    random source, the kernels' world and the iteration count: counters left
    by an earlier run, and its record of calls, do not enter them. *)
Theorem measure_counters_ignore_earlier_counters
    (world : Type) (scalar_at : scalar_type) (dimensions_ak : nat)
    (function_kind : function_kind_t)
    (metric baseline : metric_at world scalar_at) (m1 m2 : machine world)
    (Hrng : rng m1 = rng m2) (Hworld : kworld m1 = kworld m2)
    (Hn : max_iterations (state m1) = max_iterations (state m2)) :
  let rep1 := reported world scalar_at dimensions_ak function_kind metric baseline m1 in
  let rep2 := reported world scalar_at dimensions_ak function_kind metric baseline m2 in
  rep1 !! "bytes" = rep2 !! "bytes" /\
  rep1 !! "pairs" = rep2 !! "pairs" /\
  rep1 !! "abs_delta" = rep2 !! "abs_delta" /\
  rep1 !! "relative_error" = rep2 !! "relative_error".
Proof.
  intros rep1 rep2. subst rep1 rep2.
  rewrite !reported_bytes, !reported_pairs, !reported_abs_delta, !reported_relative_error.
  unfold last_contender_value, contender_values, contender_outputs, reference_value,
    baseline_output, input_pair.
  rewrite Hrng, Hworld, Hn. repeat split.
Qed.

Lemma measure_counters_ignore_earlier_counters_witness :
  let run := measure unit simsimd_f32_t 4 distance_k dot_kernel dot_kernel in
  let m := start tt 2 (list_rand sample_draws) in
  let m' := snd (call run m) in
  reported unit simsimd_f32_t 4 distance_k dot_kernel dot_kernel m' !! "pairs" =
  reported unit simsimd_f32_t 4 distance_k dot_kernel dot_kernel
    (start tt 2 (drawn (list_rand sample_draws) 8)) !! "pairs".
Proof.
  intros run m m'.
  destruct (measure_counters_ignore_earlier_counters unit simsimd_f32_t 4 distance_k
              dot_kernel dot_kernel m' (start tt 2 (drawn (list_rand sample_draws) 8)))
    as (_ & H & _).
  - vm_compute. reflexivity.
  - reflexivity.
  - reflexivity.
  - exact H.
Defined.

(** ** The cases of the catalog *)

Section CatalogCases.
Variable hardware_concurrency : Z.

Abbreviation P := (catalog_case hardware_concurrency).

Lemma adds_register (scalar_at : scalar_type) (function_kind : function_kind_t)
    (name distance_func baseline_func : string) :
  function_kind <> haversine_k ->
  adds P (invoke_proc (register_ hardware_concurrency scalar_at function_kind name
                         distance_func baseline_func))
    [registered_case hardware_concurrency scalar_at function_kind name
       distance_func baseline_func].
Proof.
  intros Hk. split.
  - intros s. unfold invoke_proc, call. now rewrite register_body.
  - apply Forall_singleton. unfold catalog_case. eauto 10.
Qed.

Lemma adds_bind (c k : proc process Z unit) (xs ys : list BenchmarkCase) :
  adds P c xs -> adds P k ys -> adds P (bind c (fun _ => k)) (xs ++ ys).
Proof.
  intros [Hc Pc] [Hk Pk]. split; [|now apply Forall_app].
  intros s. unfold bind. now rewrite Hc, Hk, with_cases_app.
Qed.

Lemma adds_if (flag : bool) (c : proc process Z unit) (xs : list BenchmarkCase) :
  adds P c xs -> adds P (if flag then c else ret tt) (if flag then xs else []).
Proof.
  intros H. destruct flag; [assumption|]. split; [|constructor].
  intros s. unfold ret, with_cases. rewrite app_nil_r. now destruct s.
Qed.

(** The end of [main] after the last registration. *)
Lemma main_tail (s : process) :
  bind (R := Z) (B := Z) get_state (fun s =>
    bind (log_event (RanSpecifiedBenchmarks (registry s))) (fun _ =>
    bind (log_event ShutDown) (fun _ => return_ 0))) s =
  (Returned 0, finished s []).
Proof.
  unfold bind, get_state, log_event, modify, return_, finished. cbn.
  rewrite app_nil_r, <- app_assoc. reflexivity.
Qed.

Lemma adds_then_tail (c : proc process Z unit) (k : proc process Z Z)
    (xs ys : list BenchmarkCase) :
  adds P c xs ->
  ((forall s, k s = (Returned 0, finished s ys)) /\ Forall P ys) ->
  (forall s, bind c (fun _ => k) s = (Returned 0, finished s (xs ++ ys))) /\
  Forall P (xs ++ ys).
Proof.
  intros [Hc Pc] [Hk Pk]. split; [|now apply Forall_app].
  intros s. unfold bind. rewrite Hc, Hk. unfold finished, with_cases. cbn.
  now rewrite !app_assoc.
Qed.

Ltac addition :=
  lazymatch goal with
  | |- adds _ (invoke_proc (register_ _ ?t ?k ?n ?f ?g)) _ =>
      refine (adds_register t k n f g _); discriminate
  | |- adds _ (if ?flag then ?c else ret tt) _ =>
      refine (adds_if flag c _ _); addition
  | |- adds _ (bind ?c (fun _ => ?k)) _ =>
      refine (adds_bind c k _ _ _ _); addition
  end.

Ltac additions :=
  lazymatch goal with
  | |- (forall s, bind get_state _ s = _) /\ _ =>
      split; [exact main_tail | constructor]
  | |- (forall s, bind ?c (fun _ => ?k) s = _) /\ _ =>
      refine (adds_then_tail c k _ _ _ _); [addition | additions]
  end.

(** The run of [main], with the registered cases told apart from the
    arguments and the parser, and each tier from the flags. *)
Lemma main_cases :
  exists neon sve haswell sapphire ice skylake serial : list BenchmarkCase,
  forall SIMSIMD_TARGET_NEON SIMSIMD_TARGET_SVE SIMSIMD_TARGET_HASWELL
         SIMSIMD_TARGET_SKYLAKE SIMSIMD_TARGET_ICE SIMSIMD_TARGET_SAPPHIRE
         SIMSIMD_NATIVE_F16 : bool,
    let cases :=
      (if SIMSIMD_TARGET_NEON then neon else []) ++
      (if SIMSIMD_TARGET_SVE then sve else []) ++
      (if SIMSIMD_TARGET_HASWELL then haswell else []) ++
      (if SIMSIMD_TARGET_SAPPHIRE then sapphire else []) ++
      (if SIMSIMD_TARGET_ICE then ice else []) ++
      (if SIMSIMD_TARGET_SKYLAKE then skylake else []) ++ serial in
    Forall P cases /\
    forall (Initialize : list string -> list string)
           (ReportUnrecognizedArguments : list string -> bool)
           (argv : list string) (s : process),
      main hardware_concurrency SIMSIMD_TARGET_NEON SIMSIMD_TARGET_SVE SIMSIMD_TARGET_HASWELL
        SIMSIMD_TARGET_SKYLAKE SIMSIMD_TARGET_ICE SIMSIMD_TARGET_SAPPHIRE SIMSIMD_NATIVE_F16
        Initialize ReportUnrecognizedArguments argv s =
      if ReportUnrecognizedArguments (Initialize argv)
      then (Returned 1,
            announced SIMSIMD_TARGET_NEON SIMSIMD_TARGET_SVE SIMSIMD_TARGET_HASWELL
              SIMSIMD_TARGET_SKYLAKE SIMSIMD_TARGET_ICE SIMSIMD_TARGET_SAPPHIRE
              SIMSIMD_NATIVE_F16 argv s)
      else (Returned 0,
            finished
              (announced SIMSIMD_TARGET_NEON SIMSIMD_TARGET_SVE SIMSIMD_TARGET_HASWELL
                 SIMSIMD_TARGET_SKYLAKE SIMSIMD_TARGET_ICE SIMSIMD_TARGET_SAPPHIRE
                 SIMSIMD_NATIVE_F16 argv s) cases).
Proof.
  do 7 eexists. intros NEON SVE HASWELL SKYLAKE ICE SAPPHIRE F16. cbv zeta.
  lazymatch goal with
  | |- Forall _ ?cases /\ _ =>
      assert (H : exists k,
                ((forall s, k s = (Returned 0, finished s cases)) /\ Forall P cases) /\
                forall Initialize ReportUnrecognizedArguments argv s,
                  main hardware_concurrency NEON SVE HASWELL SKYLAKE ICE SAPPHIRE F16
                    Initialize ReportUnrecognizedArguments argv s =
                  bind (if ReportUnrecognizedArguments (Initialize argv)
                        then return_ 1 else ret tt) (fun _ => k)
                    (announced NEON SVE HASWELL SKYLAKE ICE SAPPHIRE F16 argv s))
  end.
  { eexists. split; cycle 1.
    - intros Initialize ReportUnrecognizedArguments argv s.
      unfold main. cbv zeta.
      repeat lazymatch goal with
      | |- bind (printf ?l) ?k ?s1 = ?rhs =>
          change (k tt {| stdout := stdout s1 ++ [l]; registry := registry s1;
                          engine_log := engine_log s1 |} = rhs);
          cbv beta; cbn [stdout registry engine_log]
      | |- bind (log_event ?e) ?k ?s1 = ?rhs =>
          change (k tt {| stdout := stdout s1; registry := registry s1;
                          engine_log := engine_log s1 ++ [e] |} = rhs);
          cbv beta; cbn [stdout registry engine_log]
      end.
      lazymatch goal with
      | |- bind ?c ?k ?s1 = _ =>
          refine (f_equal (bind c k)
                    (_ : s1 = announced NEON SVE HASWELL SKYLAKE ICE SAPPHIRE F16 argv s))
      end.
      unfold announced. repeat rewrite <- app_assoc. reflexivity.
    - additions. }
  destruct H as (k & [Hk HP] & Hmain).
  split; [assumption|].
  intros Initialize ReportUnrecognizedArguments argv s. rewrite Hmain.
  unfold bind. destruct (ReportUnrecognizedArguments (Initialize argv)).
  - reflexivity.
  - unfold ret. apply Hk.
Qed.

Variables SIMSIMD_TARGET_NEON SIMSIMD_TARGET_SVE SIMSIMD_TARGET_HASWELL
          SIMSIMD_TARGET_SKYLAKE SIMSIMD_TARGET_ICE SIMSIMD_TARGET_SAPPHIRE
          SIMSIMD_NATIVE_F16 : bool.

Abbreviation main_f :=
  (main hardware_concurrency SIMSIMD_TARGET_NEON SIMSIMD_TARGET_SVE SIMSIMD_TARGET_HASWELL
     SIMSIMD_TARGET_SKYLAKE SIMSIMD_TARGET_ICE SIMSIMD_TARGET_SAPPHIRE SIMSIMD_NATIVE_F16).
Abbreviation announced_f :=
  (announced SIMSIMD_TARGET_NEON SIMSIMD_TARGET_SVE SIMSIMD_TARGET_HASWELL
     SIMSIMD_TARGET_SKYLAKE SIMSIMD_TARGET_ICE SIMSIMD_TARGET_SAPPHIRE SIMSIMD_NATIVE_F16).
Abbreviation catalog_f :=
  (catalog hardware_concurrency SIMSIMD_TARGET_NEON SIMSIMD_TARGET_SVE SIMSIMD_TARGET_HASWELL
     SIMSIMD_TARGET_SKYLAKE SIMSIMD_TARGET_ICE SIMSIMD_TARGET_SAPPHIRE SIMSIMD_NATIVE_F16).

Lemma main_catalog (Initialize : list string -> list string)
    (ReportUnrecognizedArguments : list string -> bool)
    (argv : list string) (s : process) :
  main_f Initialize ReportUnrecognizedArguments argv s =
  if ReportUnrecognizedArguments (Initialize argv)
  then (Returned 1, announced_f argv s)
  else (Returned 0, finished (announced_f argv s) catalog_f).
Proof.
  destruct main_cases as (neon & sve & haswell & sapphire & ice & skylake & serial & H).
  destruct (H SIMSIMD_TARGET_NEON SIMSIMD_TARGET_SVE SIMSIMD_TARGET_HASWELL
              SIMSIMD_TARGET_SKYLAKE SIMSIMD_TARGET_ICE SIMSIMD_TARGET_SAPPHIRE
              SIMSIMD_NATIVE_F16) as [_ Hmain].
  unfold catalog, call. rewrite !Hmain. reflexivity.
Qed.

Lemma catalog_cases : Forall P catalog_f.
Proof.
  destruct main_cases as (neon & sve & haswell & sapphire & ice & skylake & serial & H).
  destruct (H SIMSIMD_TARGET_NEON SIMSIMD_TARGET_SVE SIMSIMD_TARGET_HASWELL
              SIMSIMD_TARGET_SKYLAKE SIMSIMD_TARGET_ICE SIMSIMD_TARGET_SAPPHIRE
              SIMSIMD_NATIVE_F16) as [HP Hmain].
  unfold catalog, call. rewrite Hmain. exact HP.
Qed.

Lemma catalog_tiers :
  catalog_f =
  (if SIMSIMD_TARGET_NEON then neon_cases hardware_concurrency else []) ++
  (if SIMSIMD_TARGET_SVE then sve_cases hardware_concurrency else []) ++
  (if SIMSIMD_TARGET_HASWELL then haswell_cases hardware_concurrency else []) ++
  (if SIMSIMD_TARGET_SAPPHIRE then sapphire_cases hardware_concurrency else []) ++
  (if SIMSIMD_TARGET_ICE then ice_cases hardware_concurrency else []) ++
  (if SIMSIMD_TARGET_SKYLAKE then skylake_cases hardware_concurrency else []) ++
  serial_cases hardware_concurrency.
Proof.
  destruct main_cases as (neon & sve & haswell & sapphire & ice & skylake & serial & H).
  assert (E : forall n sv h sk i sa f,
            catalog hardware_concurrency n sv h sk i sa f =
            (if n then neon else []) ++ (if sv then sve else []) ++
            (if h then haswell else []) ++ (if sa then sapphire else []) ++
            (if i then ice else []) ++ (if sk then skylake else []) ++ serial).
  { intros n sv h sk i sa f. destruct (H n sv h sk i sa f) as [_ Hmain].
    unfold catalog, call. rewrite Hmain. reflexivity. }
  unfold neon_cases, sve_cases, haswell_cases, sapphire_cases, ice_cases, skylake_cases,
    tier, serial_cases.
  rewrite !E. cbn [app].
  rewrite !length_app, !Nat.add_sub, !take_app_length. reflexivity.
Qed.
End CatalogCases.

(** ** More properties of the catalog *)

(** X12.  When the engine accepts the arguments, [main] appends the same
    cases whatever the arguments, the parser and the cases registered
    before: the catalog depends on the capability flags and on the hardware
    concurrency alone, and the engine is asked to run the earlier cases
    followed by the catalog. *)
Theorem main_registers_the_catalog
    (hardware_concurrency : Z)
    (SIMSIMD_TARGET_NEON SIMSIMD_TARGET_SVE SIMSIMD_TARGET_HASWELL
     SIMSIMD_TARGET_SKYLAKE SIMSIMD_TARGET_ICE SIMSIMD_TARGET_SAPPHIRE
     SIMSIMD_NATIVE_F16 : bool)
    (Initialize : list string -> list string)
    (ReportUnrecognizedArguments : list string -> bool)
    (argv : list string) (s : process)
    (Haccepted : ReportUnrecognizedArguments (Initialize argv) = false) :
  let cases := catalog hardware_concurrency SIMSIMD_TARGET_NEON SIMSIMD_TARGET_SVE
                 SIMSIMD_TARGET_HASWELL SIMSIMD_TARGET_SKYLAKE SIMSIMD_TARGET_ICE
                 SIMSIMD_TARGET_SAPPHIRE SIMSIMD_NATIVE_F16 in
  let s' := snd (call (main hardware_concurrency SIMSIMD_TARGET_NEON SIMSIMD_TARGET_SVE
                         SIMSIMD_TARGET_HASWELL SIMSIMD_TARGET_SKYLAKE SIMSIMD_TARGET_ICE
                         SIMSIMD_TARGET_SAPPHIRE SIMSIMD_NATIVE_F16
                         Initialize ReportUnrecognizedArguments argv) s) in
  registry s' = registry s ++ cases /\
  engine_log s' =
    engine_log s ++ [Initialized argv; RanSpecifiedBenchmarks (registry s ++ cases); ShutDown].
Proof.
  intros cases s'. subst cases s'. unfold call.
  rewrite main_catalog, Haccepted. cbn. split; [reflexivity|].
  now rewrite <- app_assoc.
Qed.

Lemma main_registers_the_catalog_witness :
  let earlier := registered_case 4 simsimd_f32_t distance_k "mine" "f" "g" in
  registry (snd (call (main 8 false true false false false false true
                         (fun argv => drop 1 argv)
                         (fun argv => bool_decide (0 < length argv)%nat)
                         ["bench"])
                   {| stdout := []; registry := [earlier]; engine_log := [] |}))
  = [earlier] ++ catalog 8 false true false false false false true.
Proof.
  intros earlier.
  apply (main_registers_the_catalog 8 false true false false false false true
           (fun argv => drop 1 argv) (fun argv => bool_decide (0 < length argv)%nat)
           ["bench"] {| stdout := []; registry := [earlier]; engine_log := [] |}).
  reflexivity.
Defined.

(** X13.  Every case of the catalog is sized by dimensions, 1536 elements,
    with a minimum time of 10 seconds and as many threads as the hardware
    runs; its name ends with the dimension suffix; and no case is of the
    haversine kind. *)
Theorem catalog_cases_share_their_settings
    (hardware_concurrency : Z)
    (SIMSIMD_TARGET_NEON SIMSIMD_TARGET_SVE SIMSIMD_TARGET_HASWELL
     SIMSIMD_TARGET_SKYLAKE SIMSIMD_TARGET_ICE SIMSIMD_TARGET_SAPPHIRE
     SIMSIMD_NATIVE_F16 : bool) :
  Forall (fun c =>
            fn_dimensions (case_fn c) = 1536%nat /\
            case_min_time c = 10%float /\
            case_threads c = hardware_concurrency /\
            fn_kind (case_fn c) <> haversine_k /\
            exists name, case_name c = name +:+ "_1536d")
    (catalog hardware_concurrency SIMSIMD_TARGET_NEON SIMSIMD_TARGET_SVE
       SIMSIMD_TARGET_HASWELL SIMSIMD_TARGET_SKYLAKE SIMSIMD_TARGET_ICE
       SIMSIMD_TARGET_SAPPHIRE SIMSIMD_NATIVE_F16).
Proof.
  eapply Forall_impl; [apply catalog_cases|].
  intros c (t & k & n & f & g & -> & Hk). cbn. repeat split; eauto.
Qed.

(** X14.  The catalog is made of tiers in a fixed order: the cases of NEON,
    SVE, HASWELL, SAPPHIRE, ICE and SKYLAKE, each present exactly when its
    flag is set and the same whatever the other flags, and then the serial
    cases, which are always registered.  The F16 flag adds nothing. *)
Theorem catalog_is_made_of_tiers
    (hardware_concurrency : Z)
    (SIMSIMD_TARGET_NEON SIMSIMD_TARGET_SVE SIMSIMD_TARGET_HASWELL
     SIMSIMD_TARGET_SKYLAKE SIMSIMD_TARGET_ICE SIMSIMD_TARGET_SAPPHIRE
     SIMSIMD_NATIVE_F16 : bool) :
  catalog hardware_concurrency SIMSIMD_TARGET_NEON SIMSIMD_TARGET_SVE
    SIMSIMD_TARGET_HASWELL SIMSIMD_TARGET_SKYLAKE SIMSIMD_TARGET_ICE
    SIMSIMD_TARGET_SAPPHIRE SIMSIMD_NATIVE_F16 =
  (if SIMSIMD_TARGET_NEON then neon_cases hardware_concurrency else []) ++
  (if SIMSIMD_TARGET_SVE then sve_cases hardware_concurrency else []) ++
  (if SIMSIMD_TARGET_HASWELL then haswell_cases hardware_concurrency else []) ++
  (if SIMSIMD_TARGET_SAPPHIRE then sapphire_cases hardware_concurrency else []) ++
  (if SIMSIMD_TARGET_ICE then ice_cases hardware_concurrency else []) ++
  (if SIMSIMD_TARGET_SKYLAKE then skylake_cases hardware_concurrency else []) ++
  serial_cases hardware_concurrency /\
  length (neon_cases hardware_concurrency) = 15%nat /\
  length (sve_cases hardware_concurrency) = 11%nat /\
  length (haswell_cases hardware_concurrency) = 9%nat /\
  length (sapphire_cases hardware_concurrency) = 5%nat /\
  length (ice_cases hardware_concurrency) = 7%nat /\
  length (skylake_cases hardware_concurrency) = 5%nat /\
  length (serial_cases hardware_concurrency) = 19%nat.
Proof.
  split; [apply catalog_tiers|].
  repeat split; vm_compute; reflexivity.
Qed.

(** X15.  The number of registered cases: 19 serial cases, and 15, 11, 9, 5,
    7 and 5 more for NEON, SVE, HASWELL, SAPPHIRE, ICE and SKYLAKE; 71 when
    every capability is there. *)
Theorem catalog_length
    (hardware_concurrency : Z)
    (SIMSIMD_TARGET_NEON SIMSIMD_TARGET_SVE SIMSIMD_TARGET_HASWELL
     SIMSIMD_TARGET_SKYLAKE SIMSIMD_TARGET_ICE SIMSIMD_TARGET_SAPPHIRE
     SIMSIMD_NATIVE_F16 : bool) :
  let count (flag : bool) (n : nat) := if flag then n else 0%nat in
  length (catalog hardware_concurrency SIMSIMD_TARGET_NEON SIMSIMD_TARGET_SVE
            SIMSIMD_TARGET_HASWELL SIMSIMD_TARGET_SKYLAKE SIMSIMD_TARGET_ICE
            SIMSIMD_TARGET_SAPPHIRE SIMSIMD_NATIVE_F16) =
  (count SIMSIMD_TARGET_NEON 15 + count SIMSIMD_TARGET_SVE 11 +
   count SIMSIMD_TARGET_HASWELL 9 + count SIMSIMD_TARGET_SAPPHIRE 5 +
   count SIMSIMD_TARGET_ICE 7 + count SIMSIMD_TARGET_SKYLAKE 5 + 19)%nat /\
  (19 <= length (catalog hardware_concurrency SIMSIMD_TARGET_NEON SIMSIMD_TARGET_SVE
                   SIMSIMD_TARGET_HASWELL SIMSIMD_TARGET_SKYLAKE SIMSIMD_TARGET_ICE
                   SIMSIMD_TARGET_SAPPHIRE SIMSIMD_NATIVE_F16) <= 71)%nat.
Proof.
  intros count. rewrite catalog_tiers, !length_app.
  assert (Hn : length (neon_cases hardware_concurrency) = 15%nat) by (vm_compute; reflexivity).
  assert (Hsv : length (sve_cases hardware_concurrency) = 11%nat) by (vm_compute; reflexivity).
  assert (Hh : length (haswell_cases hardware_concurrency) = 9%nat) by (vm_compute; reflexivity).
  assert (Hsa : length (sapphire_cases hardware_concurrency) = 5%nat) by (vm_compute; reflexivity).
  assert (Hi : length (ice_cases hardware_concurrency) = 7%nat) by (vm_compute; reflexivity).
  assert (Hsk : length (skylake_cases hardware_concurrency) = 5%nat) by (vm_compute; reflexivity).
  assert (Hs : length (serial_cases hardware_concurrency) = 19%nat) by (vm_compute; reflexivity).
  destruct SIMSIMD_TARGET_NEON, SIMSIMD_TARGET_SVE, SIMSIMD_TARGET_HASWELL,
    SIMSIMD_TARGET_SAPPHIRE, SIMSIMD_TARGET_ICE, SIMSIMD_TARGET_SKYLAKE;
    cbn [length count]; rewrite ?Hn, ?Hsv, ?Hh, ?Hsa, ?Hi, ?Hsk, ?Hs; split; lia.
Qed.

(** X16.  No two cases of the catalog share a name, whatever the
    capabilities. *)
Theorem catalog_names_are_distinct
    (hardware_concurrency : Z)
    (SIMSIMD_TARGET_NEON SIMSIMD_TARGET_SVE SIMSIMD_TARGET_HASWELL
     SIMSIMD_TARGET_SKYLAKE SIMSIMD_TARGET_ICE SIMSIMD_TARGET_SAPPHIRE
     SIMSIMD_NATIVE_F16 : bool) :
  NoDup (case_name <$> catalog hardware_concurrency SIMSIMD_TARGET_NEON SIMSIMD_TARGET_SVE
                         SIMSIMD_TARGET_HASWELL SIMSIMD_TARGET_SKYLAKE SIMSIMD_TARGET_ICE
                         SIMSIMD_TARGET_SAPPHIRE SIMSIMD_NATIVE_F16).
Proof.
  assert (Hall : NoDup (case_name <$> catalog hardware_concurrency true true true true true true true)).
  { apply (bool_decide_unpack _). vm_compute. exact I. }
  refine (sublist_NoDup _ _ Hall _).
  apply fmap_sublist. rewrite !catalog_tiers. cbv iota.
  do 6 (apply sublist_app; [match goal with |- context [if ?f then _ else _] => destruct f end; [reflexivity | apply sublist_nil_l]|]).
  reflexivity.
Qed.

